(** * Coordinator of a coordinated-workers deployment

    A shallow embedding of [cosl/coordinated_workers/coordinator.py]:
    the role-configuration validator, the coherence predicates, the
    object-storage configuration reader, the Loki endpoint collection,
    the reconciler [update_cluster], the status reporter and the
    registration of the event handlers in the constructor.

    Python dictionaries read by key are [gmap]s, Python sets are [gset]s,
    iterables and dictionaries that the code iterates over are lists in
    iteration order, and a Python exception is the [Raise] outcome of a
    [result]. *)

From Stdlib Require Import ZArith Ascii String List Bool.
From stdpp Require Import base decidable option list gmap strings fin_maps sets pretty.

Import ListNotations.
Set Warnings "-register-all".
Local Open Scope string_scope.
Local Open Scope Z_scope.

(** ** Outcomes of Python code *)

(** The exception classes that the modelled code can raise. *)
Inductive exn : Type :=
  | S3NotFoundError (msg : string)
  | AssertionError
  | JSONDecodeError
  | KeyError (key : string)
  | TypeError
  | ValueError
  | ReError.

Inductive result (A : Type) : Type :=
  | Return (a : A)
  | Raise (e : exn).

Arguments Return {A} a.
Arguments Raise {A} e.

(** Sequencing: an exception ends the computation. *)
#[export] Instance result_ret : MRet result := fun _ a => Return a.
#[export] Instance result_bind : MBind result := fun _ _ k r =>
  match r with
  | Return a => k a
  | Raise e => Raise e
  end.

(** Python's [assert b]. *)
Definition py_assert (b : bool) : result unit :=
  if b then Return tt else Raise AssertionError.

(** ** Role configuration *)

(** [ClusterRolesConfig]: [roles] and [minimal_deployment] are iterables of
    strings, [meta_roles] a mapping from a name to an iterable of roles and
    [recommended_deployment] a dictionary from a role to a minimum count.
    The two mappings are kept in iteration order. *)
Record ClusterRolesConfig : Type := {
  roles : list string;
  meta_roles : list (string * list string);
  minimal_deployment : list string;
  recommended_deployment : list (string * Z)
}.

(** [set(xs)] for an iterable of strings. *)
Definition py_set (xs : list string) : gset string := list_to_set xs.

(** [set(xs).issubset(s)]. *)
Definition issubset (xs : list string) (s : gset string) : bool :=
  bool_decide (py_set xs ⊆ s).

(** The loop [for role_set in roles_config.meta_roles.values(): assert ...]. *)
Fixpoint assert_role_sets (role_sets : list (list string)) (rs : gset string)
  : result unit :=
  match role_sets with
  | [] => Return tt
  | role_set :: rest =>
      _ ← py_assert (issubset role_set rs);
      assert_role_sets rest rs
  end.

Definition validate_roles_config (roles_config : ClusterRolesConfig) : result unit :=
  let rs := py_set (roles roles_config) in
  _ ← py_assert (issubset (map fst (meta_roles roles_config)) rs);
  _ ← assert_role_sets (map snd (meta_roles roles_config)) rs;
  _ ← py_assert (issubset (minimal_deployment roles_config) rs);
  py_assert (issubset (map fst (recommended_deployment roles_config)) rs).

(** ** The cluster as the coordinator sees it *)

(** [ClusterProvider] lives in [cosl.coordinated_workers.interface]; the
    coordinator only reads [has_workers] and the dictionary returned by
    [gather_roles()], which are taken here as the values observed. *)
Record ClusterProvider : Type := {
  has_workers : bool;
  gather_roles : gmap string Z
}.

(** [tls_available] reads four attributes of the certificate handler. *)
Record CertHandler : Type := {
  enabled : bool;
  server_cert : option string;
  private_key : option string;
  ca_cert : option string
}.

(** A unit of a logging relation: its name and its relation data bag. *)
Record RelationUnit : Type := {
  unit_name : string;
  unit_data : gmap string string
}.

(** The attributes of a [Coordinator] object that the modelled methods read:
    the role configuration, the cluster, the two optional checkers passed to
    the constructor ([None] when absent), the optional tracing getter (by
    the dictionary it returns), the worker configuration that the bound
    generator returns, the certificate handler, the dictionary returned by
    [s3_requirer.get_s3_connection_info()] (of strings, as the library
    annotates it), the leadership of the unit, the
    secret id that [cluster.grant_privkey] returns, and the logging
    relations of the model, each with its units in iteration order. *)
Record Coordinator : Type := {
  roles_config : ClusterRolesConfig;
  cluster : ClusterProvider;
  _is_coherent : option (ClusterProvider -> ClusterRolesConfig -> bool);
  _is_recommended : option (ClusterProvider -> ClusterRolesConfig -> bool);
  _tracing_receivers_getter : option (gmap string string);
  _workers_config_getter : string;
  cert_handler : CertHandler;
  get_s3_connection_info : gmap string string;
  is_leader : bool;
  grant_privkey : string;
  logging_relations : list (list RelationUnit)
}.

(** [Coordinator.is_coherent]. *)
Definition is_coherent (self : Coordinator) : bool :=
  match _is_coherent self with
  | Some manual_coherency_checker =>
      manual_coherency_checker (cluster self) (roles_config self)
  | None =>
      let rc := roles_config self in
      let minimal := py_set (minimal_deployment rc) in
      let rls := gather_roles (cluster self) in
      bool_decide (minimal ⊆ dom rls)
  end.

(** [Coordinator.missing_roles]. *)
Definition missing_roles (self : Coordinator) : gset string :=
  let rls := gather_roles (cluster self) in
  py_set (minimal_deployment (roles_config self)) ∖ dom rls.

(** [roles.get(role, 0)]. *)
Definition roles_get (rls : gmap string Z) (role : string) : Z :=
  default 0 (rls !! role).

(** The loop of [is_recommended]: [False] at the first role below its
    minimum, [True] when the items are exhausted. *)
Fixpoint recommended_loop (rls : gmap string Z) (items : list (string * Z)) : bool :=
  match items with
  | [] => true
  | (role, min_n) :: rest =>
      if roles_get rls role <? min_n then false else recommended_loop rls rest
  end.

(** [Coordinator.is_recommended]: [None] is Python's [None]. *)
Definition is_recommended (self : Coordinator) : option bool :=
  match _is_recommended self with
  | Some manual_recommended_checker =>
      Some (manual_recommended_checker (cluster self) (roles_config self))
  | None =>
      let rc := roles_config self in
      match recommended_deployment rc with
      | [] => None
      | items => Some (recommended_loop (gather_roles (cluster self)) items)
      end
  end.

(** ** Values of the Python library *)

(** A decoded JSON document; the members of an object are kept in the order
    of the text, a later member replacing an earlier one with the same key. *)
Inductive json : Type :=
  | JNull
  | JBool (b : bool)
  | JNumber (literal : string)
  | JString (s : string)
  | JArray (items : list json)
  | JObject (members : list (string * json)).

(** The library functions whose results the coordinator depends on:
    [json.loads], the [scheme] attribute of [urllib.parse.urlparse], and
    [re.sub(rf"^{scheme}://", "", subject)]. [None] stands for the one
    exception class each of them raises: [JSONDecodeError], [ValueError]
    and [re.error]. *)
Class PyLib : Type := {
  json_loads : string -> option json;
  urlparse_scheme : string -> option string;
  re_sub_scheme : string -> string -> option string
}.

(** The outcome of a library call that raises [e] where it has no result. *)
Definition or_raise {A : Type} (e : exn) (o : option A) : result A :=
  match o with
  | Some a => Return a
  | None => Raise e
  end.

(** The value a dictionary built from [members] holds at [key]. *)
Fixpoint members_get (members : list (string * json)) (key : string) : option json :=
  match members with
  | [] => None
  | (k, v) :: rest =>
      match members_get rest key with
      | Some later => Some later
      | None => if String.eqb k key then Some v else None
      end
  end.

(** [value[key]] for a decoded document and a string key: only a dictionary
    can be indexed by a string. *)
Definition json_getitem (value : json) (key : string) : result json :=
  match value with
  | JObject members =>
      match members_get members key with
      | Some v => Return v
      | None => Raise (KeyError key)
      end
  | _ => Raise TypeError
  end.

(** [d[key]] for a dictionary of strings. *)
Definition dict_getitem (d : gmap string string) (key : string) : result string :=
  match d !! key with
  | Some v => Return v
  | None => Raise (KeyError key)
  end.

(** [key in d]. *)
Definition dict_contains (key : string) (d : gmap string string) : bool :=
  bool_decide (is_Some (d !! key)).

(** [s.startswith(p)]. *)
Definition startswith (s p : string) : bool := String.prefix p s.

(** ** Object storage *)

(** The dictionary that [_s3_config] returns, by its six keys. *)
Record S3Config : Type := {
  insecure : bool;
  endpoint : string;
  region : string;
  access_key_id : string;
  secret_access_key : string;
  bucket_name : string
}.

Section WithLibrary.
Context `{PyLib}.

(** [Coordinator._s3_config]. *)
Definition _s3_config (self : Coordinator) : result S3Config :=
  let s3_data := get_s3_connection_info self in
  if negb (bool_decide (s3_data ≠ ∅)
           && dict_contains "bucket" s3_data
           && dict_contains "endpoint" s3_data
           && dict_contains "access-key" s3_data
           && dict_contains "secret-key" s3_data)
  then Raise (S3NotFoundError "s3 integration inactive")
  else
    raw ← dict_getitem s3_data "endpoint";
    let insecure_ := negb (startswith raw "https://") in
    scheme ← or_raise ValueError (urlparse_scheme raw);
    endpoint_ ← or_raise ReError (re_sub_scheme scheme raw);
    let region_ := default "" (s3_data !! "region") in
    access_key ← dict_getitem s3_data "access-key";
    secret_key ← dict_getitem s3_data "secret-key";
    bucket ← dict_getitem s3_data "bucket";
    Return {| insecure := insecure_;
              endpoint := endpoint_;
              region := region_;
              access_key_id := access_key;
              secret_access_key := secret_key;
              bucket_name := bucket |}.

(** [Coordinator.s3_ready]: the dictionary returned by [_s3_config] has six
    keys, so its truth value is [True]; only [S3NotFoundError] is caught. *)
Definition s3_ready (self : Coordinator) : result bool :=
  match _s3_config self with
  | Return _ => Return true
  | Raise (S3NotFoundError _) => Return false
  | Raise e => Raise e
  end.

(** [Coordinator.tls_available]. *)
Definition tls_available (self : Coordinator) : bool :=
  enabled (cert_handler self)
  && bool_decide (server_cert (cert_handler self) ≠ None)
  && bool_decide (private_key (cert_handler self) ≠ None)
  && bool_decide (ca_cert (cert_handler self) ≠ None).

(** ** Loki endpoints *)

(** The body of the inner loop of [loki_endpoints_by_unit] for one unit. *)
Definition loki_unit_step (endpoints : gmap string json) (u : RelationUnit)
  : result (gmap string json) :=
  if negb (dict_contains "endpoint" (unit_data u)) then Return endpoints
  else
    endpoint_ ← dict_getitem (unit_data u) "endpoint";
    deserialized_endpoint ← or_raise JSONDecodeError (json_loads endpoint_);
    url ← json_getitem deserialized_endpoint "url";
    Return (<[unit_name u := url]> endpoints).

Fixpoint loki_units_loop (endpoints : gmap string json) (us : list RelationUnit)
  : result (gmap string json) :=
  match us with
  | [] => Return endpoints
  | u :: rest =>
      endpoints' ← loki_unit_step endpoints u;
      loki_units_loop endpoints' rest
  end.

Fixpoint loki_relations_loop (endpoints : gmap string json)
    (relations : list (list RelationUnit)) : result (gmap string json) :=
  match relations with
  | [] => Return endpoints
  | relation :: rest =>
      endpoints' ← loki_units_loop endpoints relation;
      loki_relations_loop endpoints' rest
  end.

(** [Coordinator.loki_endpoints_by_unit]. *)
Definition loki_endpoints_by_unit (self : Coordinator) : result (gmap string json) :=
  loki_relations_loop ∅ (logging_relations self).

End WithLibrary.

(** ** Effects *)

Inductive status : Type :=
  | BlockedStatus (message : string)
  | ActiveStatus (message : string).

(** The keyword arguments of one [cluster.publish_data] call; the three TLS
    keys and [tracing_receivers] are present only when passed. *)
Record TlsData : Type := {
  tls_ca_cert : option string;
  tls_server_cert : option string;
  privkey_secret_id : string
}.

Record PublishedData : Type := {
  worker_config : string;
  loki_endpoints : gmap string json;
  tls_data : option TlsData;
  tracing_receivers : option (gmap string string)
}.

(** The notifications the constructor observes, and the methods it binds. *)
Inductive event : Type :=
  | collect_unit_status
  | config_changed
  | nginx_pebble_ready
  | nginx_prometheus_exporter_pebble_ready
  | s3_credentials_changed
  | s3_credentials_gone
  | loki_push_api_endpoint_joined
  | loki_push_api_endpoint_departed
  | cert_changed
  | cluster_changed.

Inductive handler : Type :=
  | OnCollectUnitStatus
  | OnConfigChanged
  | OnNginxPebbleReady
  | OnNginxPrometheusExporterPebbleReady
  | OnS3CredentialsChanged
  | OnS3CredentialsGone
  | OnLokiRelationChanged
  | OnCertHandlerChanged
  | OnClusterChanged.

#[export] Instance event_eq_dec : EqDecision event.
Proof. solve_decision. Defined.

#[export] Instance handler_eq_dec : EqDecision handler.
Proof. solve_decision. Defined.

(** What a method does to its collaborators, in the order it does it. *)
Inductive action : Type :=
  | NginxConfigurePebbleLayer
  | NginxExporterConfigurePebbleLayer
  | NginxConfigureTls (server ca key : option string)
  | NginxDeleteCertificates
  | LogWarning (message : string)
  | LogError (message : string)
  | GrantPrivkey
  | PublishData (data : PublishedData)
  | AddStatus (s : status)
  | Observe (ev : event) (h : handler).

(** A method run: the actions performed, then its outcome. *)
Record eff (A : Type) : Type := Eff {
  trace : list action;
  outcome : result A
}.

Arguments Eff {A} trace outcome.
Arguments trace {A} e.
Arguments outcome {A} e.

#[export] Instance eff_ret : MRet eff := fun _ a => Eff [] (Return a).
#[export] Instance eff_bind : MBind eff := fun _ _ k m =>
  match outcome m with
  | Return a => Eff (trace m ++ trace (k a)) (outcome (k a))
  | Raise e => Eff (trace m) (Raise e)
  end.

Definition act (a : action) : eff unit := Eff [a] (Return tt).
Definition lift {A : Type} (r : result A) : eff A := Eff [] r.

Section Reconciler.
Context `{PyLib}.

(** The TLS keyword arguments of the [publish_data] call. *)
Definition tls_kwargs (self : Coordinator) : eff (option TlsData) :=
  if tls_available self then
    _ ← act GrantPrivkey;
    mret (Some {| tls_ca_cert := ca_cert (cert_handler self);
                  tls_server_cert := server_cert (cert_handler self);
                  privkey_secret_id := grant_privkey self |})
  else mret None.

(** [Coordinator.update_cluster]. *)
Definition update_cluster (self : Coordinator) : eff unit :=
  _ ← act NginxConfigurePebbleLayer;
  _ ← act NginxExporterConfigurePebbleLayer;
  if negb (is_coherent self) then
    act (LogError "skipped cluster update: incoherent deployment")
  else if negb (is_leader self) then mret tt
  else
    let config := _workers_config_getter self in
    endpoints ← lift (loki_endpoints_by_unit self);
    tls ← tls_kwargs self;
    let receivers := _tracing_receivers_getter self in
    act (PublishData {| worker_config := config;
                        loki_endpoints := endpoints;
                        tls_data := tls;
                        tracing_receivers := receivers |}).

(** The TLS refresh shared by two handlers. *)
Definition refresh_nginx_tls (self : Coordinator) : eff unit :=
  if tls_available self then
    act (NginxConfigureTls (server_cert (cert_handler self))
                           (ca_cert (cert_handler self))
                           (private_key (cert_handler self)))
  else act NginxDeleteCertificates.

Definition _on_cert_handler_changed (self : Coordinator) : eff unit :=
  _ ← refresh_nginx_tls self;
  update_cluster self.

Definition _on_cluster_changed (self : Coordinator) : eff unit :=
  update_cluster self.

Definition _on_nginx_pebble_ready (self : Coordinator) : eff unit :=
  update_cluster self.

Definition _on_nginx_prometheus_exporter_pebble_ready (self : Coordinator) : eff unit :=
  update_cluster self.

Definition _on_loki_relation_changed (self : Coordinator) : eff unit :=
  update_cluster self.

Definition _on_s3_changed (self : Coordinator) : eff unit :=
  update_cluster self.

Definition _on_s3_credentials_changed (self : Coordinator) : eff unit :=
  _on_s3_changed self.

Definition _on_s3_credentials_gone (self : Coordinator) : eff unit :=
  _on_s3_changed self.

Definition _on_config_changed (self : Coordinator) : eff unit :=
  _ ← refresh_nginx_tls self;
  update_cluster self.

(** Python's [not x] for an optional boolean: [None] is falsy. *)
Definition py_not_optional (x : option bool) : bool :=
  match x with
  | Some true => false
  | Some false => true
  | None => true
  end.

(** [Coordinator._on_collect_unit_status]. *)
Definition _on_collect_unit_status (self : Coordinator) : eff unit :=
  _ ← (if negb (has_workers (cluster self)) then
         act (AddStatus (BlockedStatus "[consistency] Missing any worker relation."))
       else mret tt);
  _ ← (if negb (is_coherent self) then
         act (AddStatus (BlockedStatus "[consistency] Cluster inconsistent."))
       else mret tt);
  ready ← lift (s3_ready self);
  if negb ready then
    act (AddStatus (BlockedStatus "[consistency] Missing S3 integration."))
  else if py_not_optional (is_recommended self) then
    act (AddStatus (ActiveStatus "[coordinator] Degraded."))
  else act (AddStatus (ActiveStatus "")).

(** The method bound to each handler name. *)
Definition handler_body (h : handler) : Coordinator -> eff unit :=
  match h with
  | OnCollectUnitStatus => _on_collect_unit_status
  | OnConfigChanged => _on_config_changed
  | OnNginxPebbleReady => _on_nginx_pebble_ready
  | OnNginxPrometheusExporterPebbleReady => _on_nginx_prometheus_exporter_pebble_ready
  | OnS3CredentialsChanged => _on_s3_credentials_changed
  | OnS3CredentialsGone => _on_s3_credentials_gone
  | OnLokiRelationChanged => _on_loki_relation_changed
  | OnCertHandlerChanged => _on_cert_handler_changed
  | OnClusterChanged => _on_cluster_changed
  end.

(** The registrations at the end of [Coordinator.__init__], reached only
    when none of the three early returns is taken. *)
Definition observe_all : eff unit :=
  _ ← act (Observe config_changed OnConfigChanged);
  _ ← act (Observe nginx_pebble_ready OnNginxPebbleReady);
  _ ← act (Observe nginx_prometheus_exporter_pebble_ready
                   OnNginxPrometheusExporterPebbleReady);
  _ ← act (Observe s3_credentials_changed OnS3CredentialsChanged);
  _ ← act (Observe s3_credentials_gone OnS3CredentialsGone);
  _ ← act (Observe loki_push_api_endpoint_joined OnLokiRelationChanged);
  _ ← act (Observe loki_push_api_endpoint_departed OnLokiRelationChanged);
  _ ← act (Observe cert_changed OnCertHandlerChanged);
  act (Observe cluster_changed OnClusterChanged).

(** The three messages logged before an early return, without the unit
    name and the common ending that the source interpolates. *)
Definition no_workers_warning : string :=
  "Incoherent deployment. {unit} is missing relation to workers.".
Definition incoherent_error : string :=
  "Incoherent deployment. {unit} will be shutting down. This likely means you are lacking some required roles in your workers.".
Definition no_s3_error : string :=
  "Incoherent deployment. {unit} will be shutting down. This likely means you need to add an s3 integration.".

(** [Coordinator.__init__], from the validation of the role configuration
    on: the attributes are those of [self]; the construction of the
    collaborators and the rendering of the alert rules are left out. *)
Definition __init__ (self : Coordinator) : eff unit :=
  _ ← lift (validate_roles_config (roles_config self));
  _ ← act (Observe collect_unit_status OnCollectUnitStatus);
  if negb (has_workers (cluster self)) then act (LogWarning no_workers_warning)
  else if negb (is_coherent self) then act (LogError incoherent_error)
  else
    blocked ← (if has_workers (cluster self) then
                 ready ← lift (s3_ready self);
                 mret (negb ready)
               else mret false);
    if (blocked : bool) then act (LogError no_s3_error)
    else observe_all.

(** The handlers that a constructed coordinator has bound to [ev]. *)
Definition observers (self : Coordinator) (ev : event) : list handler :=
  omap (fun a => match a with
                 | Observe ev' h => if decide (ev' = ev) then Some h else None
                 | _ => None
                 end) (trace (__init__ self)).

End Reconciler.

(** ** A model of the Python library

    An executable instance of [PyLib] that follows CPython 3.10 on strings
    of one-byte characters: [json.loads] of the [json] module,
    [urlsplit] of [urllib.parse] as far as it decides the scheme and raises
    [ValueError], and the matching of [re] on the patterns that
    [rf"^{scheme}://"] produces; each function is [None] where the library
    raises. The theorems that quantify over [PyLib] do not depend on it. *)
Module PyModel.

Definition codes (s : string) : list N := map N_of_ascii (list_ascii_of_string s).
Definition text (cs : list N) : string :=
  string_of_list_ascii (map ascii_of_N cs).

(** *** json.loads *)

(** [WHITESPACE]: space, tab, line feed, carriage return. *)
Definition is_ws (c : N) : bool :=
  (c =? 32)%N || (c =? 9)%N || (c =? 10)%N || (c =? 13)%N.

Fixpoint skip_ws (cs : list N) : list N :=
  match cs with
  | c :: rest => if is_ws c then skip_ws rest else cs
  | [] => []
  end.

Definition is_digit (c : N) : bool := (48 <=? c)%N && (c <=? 57)%N.

Definition hex_value (c : N) : option N :=
  if is_digit c then Some (c - 48)%N
  else if (97 <=? c)%N && (c <=? 102)%N then Some (c - 87)%N
  else if (65 <=? c)%N && (c <=? 70)%N then Some (c - 55)%N
  else None.

Definition hex4 (a b c d : N) : option N :=
  x ← hex_value a; y ← hex_value b; z ← hex_value c; w ← hex_value d;
  Some (x * 4096 + y * 256 + z * 16 + w)%N.

(** The UTF-8 bytes of a code point below 65536. *)
Definition utf8 (u : N) : list N :=
  if (u <? 128)%N then [u]
  else if (u <? 2048)%N then [192 + u / 64; 128 + u mod 64]%N
  else [224 + u / 4096; 128 + (u / 64) mod 64; 128 + u mod 64]%N.

(** The characters of a string literal after its opening quote, up to the
    closing quote: a control character is refused, a backslash starts one
    of the escapes of the grammar. *)
Fixpoint scan_string (cs : list N) (acc : list N) : option (string * list N) :=
  match cs with
  | [] => None
  | 34%N :: rest => Some (text (rev acc), rest)
  | 92%N :: 117%N :: a :: b :: c :: d :: rest =>
      u ← hex4 a b c d;
      scan_string rest (rev (utf8 u) ++ acc)%list
  | 92%N :: e :: rest =>
      match e with
      | 34%N => scan_string rest (34%N :: acc)
      | 92%N => scan_string rest (92%N :: acc)
      | 47%N => scan_string rest (47%N :: acc)
      | 98%N => scan_string rest (8%N :: acc)
      | 102%N => scan_string rest (12%N :: acc)
      | 110%N => scan_string rest (10%N :: acc)
      | 114%N => scan_string rest (13%N :: acc)
      | 116%N => scan_string rest (9%N :: acc)
      | _ => None
      end
  | c :: rest => if (c <? 32)%N then None else scan_string rest (c :: acc)
  end.

Fixpoint take_digits (cs : list N) : list N * list N :=
  match cs with
  | c :: rest =>
      if is_digit c then let '(ds, r) := take_digits rest in (c :: ds, r)
      else ([], cs)
  | [] => ([], [])
  end.

(** [NUMBER_RE]: an integer part, then a fraction and an exponent when they
    are complete. *)
Definition scan_number (cs : list N) : option (list N * list N) :=
  let '(sign, cs1) := match cs with
                      | 45%N :: r => ([45%N], r)
                      | _ => ([], cs)
                      end in
  match cs1 with
  | [] => None
  | c :: r =>
      if negb (is_digit c) then None
      else
        let '(int_part, cs2) :=
          if (c =? 48)%N then ([c], r)
          else let '(ds, r') := take_digits r in (c :: ds, r') in
        let '(frac, cs3) :=
          match cs2 with
          | 46%N :: r2 =>
              match take_digits r2 with
              | ([], _) => ([], cs2)
              | (ds, r3) => (46%N :: ds, r3)
              end
          | _ => ([], cs2)
          end in
        let '(expo, cs4) :=
          match cs3 with
          | e :: r3 =>
              if (e =? 101)%N || (e =? 69)%N then
                let '(sg, r4) := match r3 with
                                 | s :: r' =>
                                     if (s =? 43)%N || (s =? 45)%N then ([s], r')
                                     else ([], r3)
                                 | [] => ([], r3)
                                 end in
                match take_digits r4 with
                | ([], _) => ([], cs3)
                | (ds, r5) => (e :: (sg ++ ds)%list, r5)
                end
              else ([], cs3)
          | [] => ([], cs3)
          end in
        Some ((sign ++ int_part ++ frac ++ expo)%list, cs4)
  end.

(** [cs] without the prefix [p], when it starts with it. *)
Fixpoint strip_prefix (p cs : list N) : option (list N) :=
  match p, cs with
  | [], _ => Some cs
  | x :: p', y :: cs' => if (x =? y)%N then strip_prefix p' cs' else None
  | _ :: _, [] => None
  end.

Definition keyword (word : string) (v : json) (cs : list N) : option (json * list N) :=
  rest ← strip_prefix (codes word) cs; Some (v, rest).

(** [scan_once] with the object and array parsers; the fuel bounds the
    number of nested calls, each of which follows a consumed character. *)
Fixpoint scan_value (fuel : nat) (cs : list N) : option (json * list N) :=
  match fuel with
  | O => None
  | S fuel' =>
      match cs with
      | 34%N :: rest =>
          '(s, rest') ← scan_string rest []; Some (JString s, rest')
      | 123%N :: rest =>
          match skip_ws rest with
          | 125%N :: rest' => Some (JObject [], rest')
          | rest' =>
              '(ms, rest'') ← scan_members fuel' rest'; Some (JObject ms, rest'')
          end
      | 91%N :: rest =>
          match skip_ws rest with
          | 93%N :: rest' => Some (JArray [], rest')
          | rest' =>
              '(vs, rest'') ← scan_items fuel' rest'; Some (JArray vs, rest'')
          end
      | 110%N :: _ => keyword "null" JNull cs
      | 116%N :: _ => keyword "true" (JBool true) cs
      | 102%N :: _ => keyword "false" (JBool false) cs
      | _ =>
          match scan_number cs with
          | Some (lit, rest) => Some (JNumber (text lit), rest)
          | None =>
              match cs with
              | 78%N :: _ => keyword "NaN" (JNumber "NaN") cs
              | 73%N :: _ => keyword "Infinity" (JNumber "Infinity") cs
              | 45%N :: _ => keyword "-Infinity" (JNumber "-Infinity") cs
              | _ => None
              end
          end
      end
  end
with scan_members (fuel : nat) (cs : list N) : option (list (string * json) * list N) :=
  match fuel with
  | O => None
  | S fuel' =>
      match cs with
      | 34%N :: rest =>
          '(key, rest1) ← scan_string rest [];
          match skip_ws rest1 with
          | 58%N :: rest2 =>
              '(v, rest3) ← scan_value fuel' (skip_ws rest2);
              match skip_ws rest3 with
              | 125%N :: rest4 => Some ([(key, v)], rest4)
              | 44%N :: rest4 =>
                  '(ms, rest5) ← scan_members fuel' (skip_ws rest4);
                  Some ((key, v) :: ms, rest5)
              | _ => None
              end
          | _ => None
          end
      | _ => None
      end
  end
with scan_items (fuel : nat) (cs : list N) : option (list json * list N) :=
  match fuel with
  | O => None
  | S fuel' =>
      '(v, rest) ← scan_value fuel' cs;
      match skip_ws rest with
      | 93%N :: rest' => Some ([v], rest')
      | 44%N :: rest' =>
          '(vs, rest'') ← scan_items fuel' (skip_ws rest');
          Some (v :: vs, rest'')
      | _ => None
      end
  end.

(** [json.loads(s)]: one value between optional white space, then the end
    of the text. *)
Definition loads (s : string) : option json :=
  let cs := codes s in
  '(v, rest) ← scan_value (S (length cs)) (skip_ws cs);
  match skip_ws rest with
  | [] => Some v
  | _ => None
  end.

(** *** urllib.parse.urlparse *)

Definition is_alpha (c : N) : bool :=
  ((97 <=? c)%N && (c <=? 122)%N) || ((65 <=? c)%N && (c <=? 90)%N).

(** [scheme_chars]: letters, digits, [+], [-] and [.]. *)
Definition is_scheme_char (c : N) : bool :=
  is_alpha c || is_digit c || (c =? 43)%N || (c =? 45)%N || (c =? 46)%N.

Definition lower (c : N) : N :=
  if (65 <=? c)%N && (c <=? 90)%N then (c + 32)%N else c.

(** [url.lstrip(_WHATWG_C0_CONTROL_OR_SPACE)]. *)
Fixpoint lstrip_c0 (cs : list N) : list N :=
  match cs with
  | c :: rest => if (c <=? 32)%N then lstrip_c0 rest else cs
  | [] => []
  end.

(** The removal of tab, line feed and carriage return from the url. *)
Definition remove_unsafe (cs : list N) : list N :=
  List.filter (fun c => negb ((c =? 9)%N || (c =? 10)%N || (c =? 13)%N)) cs.

(** [url[:i]] and [url[i+1:]] for [i = url.find(':')], when there is one. *)
Fixpoint split_colon (cs : list N) : option (list N * list N) :=
  match cs with
  | [] => None
  | c :: rest =>
      if (c =? 58)%N then Some ([], rest)
      else '(pre, post) ← split_colon rest; Some (c :: pre, post)
  end.

(** The scheme and the rest of the url. *)
Definition split_scheme (url : list N) : list N * list N :=
  match split_colon url with
  | Some (c :: pre, rest) =>
      if forallb is_scheme_char (c :: pre) then (map lower (c :: pre), rest)
      else ([], url)
  | _ => ([], url)
  end.

(** The network location: what follows [//] up to the first of [/?#]. *)
Fixpoint take_netloc (cs : list N) : list N :=
  match cs with
  | c :: rest =>
      if (c =? 47)%N || (c =? 63)%N || (c =? 35)%N then []
      else c :: take_netloc rest
  | [] => []
  end.

Definition has (c : N) (cs : list N) : bool := existsb (N.eqb c) cs.

(** [urlparse(url).scheme]; [ValueError] for a network location with one
    square bracket and not the other. *)
Definition scheme (url : string) : option string :=
  let '(sch, rest) := split_scheme (remove_unsafe (lstrip_c0 (codes url))) in
  match rest with
  | 47%N :: 47%N :: after =>
      let netloc := take_netloc after in
      if xorb (has 91 netloc) (has 93 netloc) then None
      else Some (text sch)
  | _ => Some (text sch)
  end.

(** *** re.sub *)

(** A compiled pattern: literal characters and [.], each taken once or,
    when followed by [+], one or more times. *)
Inductive atom : Type :=
  | Lit (c : N)
  | AnyChar.

(** A [+] with nothing to repeat, or after a repetition, is an error. *)
Fixpoint compile (cs : list N) (acc : list (atom * bool))
  : option (list (atom * bool)) :=
  match cs with
  | [] => Some (rev acc)
  | 43%N :: rest =>
      match acc with
      | [] => None
      | (_, true) :: _ => None
      | (a, false) :: acc' => compile rest ((a, true) :: acc')
      end
  | 46%N :: rest => compile rest ((AnyChar, false) :: acc)
  | c :: rest => compile rest ((Lit c, false) :: acc)
  end.

Definition atom_ok (a : atom) (c : N) : bool :=
  match a with
  | Lit x => (x =? c)%N
  | AnyChar => negb (c =? 10)%N
  end.

(** What is left of [cs] after the first match of [items] at its start, in
    the order in which a backtracking matcher tries: a repetition takes as
    many characters as it can and gives them back one at a time. *)
Fixpoint match_items (items : list (atom * bool)) (cs : list N) : option (list N) :=
  match items with
  | [] => Some cs
  | (a, false) :: items' =>
      match cs with
      | c :: rest => if atom_ok a c then match_items items' rest else None
      | [] => None
      end
  | (a, true) :: items' =>
      let fix more (cs : list N) : option (list N) :=
        match cs with
        | c :: rest =>
            if atom_ok a c then
              match more rest with
              | Some remaining => Some remaining
              | None => match_items items' cs
              end
            else match_items items' cs
        | [] => match_items items' cs
        end in
      match cs with
      | c :: rest => if atom_ok a c then more rest else None
      | [] => None
      end
  end.

(** [re.sub(rf"^{scheme}://", "", subject)] for a scheme made of
    [scheme_chars]: the pattern can only match at the start, and not twice. *)
Definition sub_scheme (sch subject : string) : option string :=
  items ← compile (codes sch ++ codes "://")%list [];
  match match_items items (codes subject) with
  | Some remaining => Some (text remaining)
  | None => Some subject
  end.

End PyModel.

#[export] Instance cpython : PyLib := {
  json_loads := PyModel.loads;
  urlparse_scheme := PyModel.scheme;
  re_sub_scheme := PyModel.sub_scheme
}.

(** A double quote, and a JSON string literal of plain characters. *)
Definition dq : string := String "034"%char EmptyString.
Definition quoted (s : string) : string := String.append dq (String.append s dq).

(** ** Sample deployments *)

(** The role configuration of the test suite. *)
Definition loki_roles : ClusterRolesConfig := {|
  roles := ["all"; "read"; "write"; "backend"];
  meta_roles := [("all", ["all"; "read"; "write"; "backend"])];
  minimal_deployment := ["read"; "write"; "backend"];
  recommended_deployment := [("read", 3); ("write", 3); ("backend", 3)]
|}.

(** The same roles with no recommended deployment. *)
Definition plain_roles : ClusterRolesConfig := {|
  roles := ["all"; "read"; "write"; "backend"];
  meta_roles := [("all", ["all"; "read"; "write"; "backend"])];
  minimal_deployment := ["read"; "write"; "backend"];
  recommended_deployment := []
|}.

(** One worker per role, and the cluster left when the backend worker goes. *)
Definition three_workers : ClusterProvider := {|
  has_workers := true;
  gather_roles := {[ "read" := 1; "write" := 1; "backend" := 1 ]}
|}.

Definition no_backend : ClusterProvider := {|
  has_workers := true;
  gather_roles := {[ "read" := 1; "write" := 1 ]}
|}.

Definition nine_workers : ClusterProvider := {|
  has_workers := true;
  gather_roles := {[ "read" := 3; "write" := 3; "backend" := 3 ]}
|}.

Definition no_workers : ClusterProvider := {|
  has_workers := false;
  gather_roles := ∅
|}.

Definition no_tls : CertHandler := {|
  enabled := false; server_cert := None; private_key := None; ca_cert := None
|}.

(** The s3 relation data of the test suite, with a given endpoint. *)
Definition s3_data_with (raw_endpoint : string) : gmap string string :=
  {[ "endpoint" := raw_endpoint; "bucket" := "foo-bucket";
     "access-key" := "my-access-key"; "secret-key" := "my-secret-key" ]}.

(** A coordinator without custom checkers, TLS or tracing. *)
Definition plain_coordinator (rc : ClusterRolesConfig) (cl : ClusterProvider)
    (leader : bool) (s3 : gmap string string)
    (logging : list (list RelationUnit)) : Coordinator := {|
  roles_config := rc;
  cluster := cl;
  _is_coherent := None;
  _is_recommended := None;
  _tracing_receivers_getter := None;
  _workers_config_getter := "workers configuration for foo-app";
  cert_handler := no_tls;
  get_s3_connection_info := s3;
  is_leader := leader;
  grant_privkey := "secret:privkey";
  logging_relations := logging
|}.

(** A coordinator whose coherence checker is supplied by the caller. *)
Definition custom_coordinator
    (checker : ClusterProvider -> ClusterRolesConfig -> bool) : Coordinator := {|
  roles_config := loki_roles;
  cluster := no_backend;
  _is_coherent := Some checker;
  _is_recommended := Some checker;
  _tracing_receivers_getter := None;
  _workers_config_getter := "workers configuration for foo-app";
  cert_handler := no_tls;
  get_s3_connection_info := s3_data_with "s3";
  is_leader := true;
  grant_privkey := "secret:privkey";
  logging_relations := []
|}.

(** ** Notions used in the statements *)

(** The four mandatory keys of the s3 connection info are present. *)
Definition s3_fields_present (s3_data : gmap string string) : Prop :=
  is_Some (s3_data !! "bucket") /\ is_Some (s3_data !! "endpoint")
  /\ is_Some (s3_data !! "access-key") /\ is_Some (s3_data !! "secret-key").

(** The expression that [_s3_config] stores under ["endpoint"]:
    [re.sub(rf"^{urlparse(raw).scheme}://", "", raw)]. *)
Definition normalise_endpoint `{PyLib} (raw : string) : result string :=
  scheme ← or_raise ValueError (urlparse_scheme raw);
  or_raise ReError (re_sub_scheme scheme raw).

(** The healthy deployment of the test suite with no recommended deployment
    configured: three workers, s3 related, the unit leader. *)
Definition healthy_plain : Coordinator :=
  plain_coordinator plain_roles three_workers true (s3_data_with "s3") [].

(** The same deployment with a given raw endpoint in the s3 relation. *)
Definition with_endpoint (raw : string) : Coordinator :=
  plain_coordinator loki_roles three_workers true (s3_data_with raw) [].

(** [self] with other logging relations. *)
Definition with_logging (self : Coordinator)
    (relations : list (list RelationUnit)) : Coordinator := {|
  roles_config := roles_config self;
  cluster := cluster self;
  _is_coherent := _is_coherent self;
  _is_recommended := _is_recommended self;
  _tracing_receivers_getter := _tracing_receivers_getter self;
  _workers_config_getter := _workers_config_getter self;
  cert_handler := cert_handler self;
  get_s3_connection_info := get_s3_connection_info self;
  is_leader := is_leader self;
  grant_privkey := grant_privkey self;
  logging_relations := relations
|}.

(** The relation data of the unit has an ["endpoint"] key. *)
Definition has_endpoint (u : RelationUnit) : bool :=
  dict_contains "endpoint" (unit_data u).

(** The url that [loki_endpoints_by_unit] reads from a unit that has an
    endpoint: [json.loads(relation.data[unit]["endpoint"])["url"]]. *)
Definition unit_url `{PyLib} (u : RelationUnit) : result json :=
  endpoint_ ← dict_getitem (unit_data u) "endpoint";
  deserialized_endpoint ← or_raise JSONDecodeError (json_loads endpoint_);
  json_getitem deserialized_endpoint "url".

(** A Loki unit announcing its push endpoint, one with no endpoint in its
    data, and one whose endpoint is not JSON. *)
Definition loki_push_url : string := "http://loki:3100/loki/api/v1/push".

Definition loki_unit (name : string) : RelationUnit := {|
  unit_name := name;
  unit_data := {[ "endpoint" :=
    String.append "{" (String.append (quoted "url")
      (String.append ": " (String.append (quoted loki_push_url) "}"))) ]}
|}.

Definition silent_unit (name : string) : RelationUnit := {|
  unit_name := name;
  unit_data := ∅
|}.

Definition garbled_unit (name : string) : RelationUnit := {|
  unit_name := name;
  unit_data := {[ "endpoint" := "not json" ]}
|}.

(** The healthy deployment related to Loki units. *)
Definition with_loki (units : list RelationUnit) : Coordinator :=
  plain_coordinator loki_roles three_workers true (s3_data_with "s3") [units].

(** The references the claim lists: the members of every meta-role, the
    minimal deployment and the keys of the recommended deployment are roles. *)
Definition listed_roles_defined (rc : ClusterRolesConfig) : Prop :=
  (forall name members, (name, members) ∈ meta_roles rc ->
     forall role, role ∈ members -> role ∈ roles rc)
  /\ (forall role, role ∈ minimal_deployment rc -> role ∈ roles rc)
  /\ (forall role min_n, (role, min_n) ∈ recommended_deployment rc ->
       role ∈ roles rc).

(** What the validator asserts: the names of the meta-roles are roles too. *)
Definition all_roles_defined (rc : ClusterRolesConfig) : Prop :=
  (forall name members, (name, members) ∈ meta_roles rc -> name ∈ roles rc)
  /\ listed_roles_defined rc.

(** A configuration whose meta-role name is not itself a role. *)
Definition alias_roles : ClusterRolesConfig := {|
  roles := ["read"; "write"];
  meta_roles := [("all", ["read"; "write"])];
  minimal_deployment := ["read"; "write"];
  recommended_deployment := [("read", 1)]
|}.

(** The notifications that are to trigger a reconciliation. *)
Definition reconcile_events : list event :=
  [cluster_changed; s3_credentials_changed; s3_credentials_gone; cert_changed;
   loki_push_api_endpoint_joined; loki_push_api_endpoint_departed;
   nginx_pebble_ready; nginx_prometheus_exporter_pebble_ready; config_changed].

(** A coordinator constructed before any worker is related. *)
Definition lonely : Coordinator :=
  plain_coordinator loki_roles no_workers true (s3_data_with "s3") [].


(** ** The remaining methods of the coordinator *)

(** [Coordinator.can_handle_events]: the operands of [and] are read from
    left to right, up to the first false one. *)
Definition can_handle_events `{PyLib} (self : Coordinator) : result bool :=
  if has_workers (cluster self) then
    if is_coherent self then s3_ready self else Return false
  else Return false.

(** [Coordinator._internal_url], for the host name that [socket.getfqdn()]
    returns. *)
Definition _internal_url (self : Coordinator) (hostname : string) : string :=
  let scheme := if tls_available self then "https" else "http" in
  String.append scheme (String.append "://" hostname).

(** [self] seen with another cluster, and a role configuration with other
    roles. *)
Definition with_cluster (self : Coordinator) (cl : ClusterProvider) : Coordinator := {|
  roles_config := roles_config self;
  cluster := cl;
  _is_coherent := _is_coherent self;
  _is_recommended := _is_recommended self;
  _tracing_receivers_getter := _tracing_receivers_getter self;
  _workers_config_getter := _workers_config_getter self;
  cert_handler := cert_handler self;
  get_s3_connection_info := get_s3_connection_info self;
  is_leader := is_leader self;
  grant_privkey := grant_privkey self;
  logging_relations := logging_relations self
|}.

Definition with_roles (rc : ClusterRolesConfig) (rs : list string) : ClusterRolesConfig := {|
  roles := rs;
  meta_roles := meta_roles rc;
  minimal_deployment := minimal_deployment rc;
  recommended_deployment := recommended_deployment rc
|}.

(** *** Scrape jobs *)

(** An entry of [cluster.gather_topology()]. *)
Record WorkerTopology : Type := {
  worker_unit : string;
  worker_application : string;
  worker_charm_name : string;
  worker_address : string
}.

(** What the scrape jobs and the alert rules read: the gathered topology,
    the metrics port of the workers, the host name of the unit, the port of
    Nginx, and the name and uuid of the model. *)
Record Monitoring : Type := {
  gather_topology : list WorkerTopology;
  _worker_metrics_port : Z;
  hostname : string;
  nginx_port : Z;
  model_name : string;
  model_uuid : string
}.

Record RelabelConfig : Type := {
  target_label : string;
  replacement : string
}.

(** A scrape job: the target lists of its static configurations, and its
    relabel configurations when it has the key. *)
Record ScrapeJob : Type := {
  static_configs : list (list string);
  relabel_configs : option (list RelabelConfig)
}.

(** [f"{host}:{port}"]. *)
Definition host_port (host : string) (port : Z) : string :=
  String.append host (String.append ":" (pretty port)).

(** The job built in the loop of [_workers_scrape_jobs] for one worker. *)
Definition worker_job (m : Monitoring) (worker : WorkerTopology) : ScrapeJob := {|
  static_configs := [[host_port (worker_address worker) (_worker_metrics_port m)]];
  relabel_configs := Some [
    {| target_label := "juju_charm"; replacement := worker_charm_name worker |};
    {| target_label := "juju_unit"; replacement := worker_unit worker |};
    {| target_label := "juju_application"; replacement := worker_application worker |};
    {| target_label := "juju_model"; replacement := model_name m |};
    {| target_label := "juju_model_uuid"; replacement := model_uuid m |} ]
|}.

Fixpoint workers_scrape_loop (m : Monitoring) (scrape_jobs : list ScrapeJob)
    (workers : list WorkerTopology) : list ScrapeJob :=
  match workers with
  | [] => scrape_jobs
  | worker :: rest =>
      workers_scrape_loop m (scrape_jobs ++ [worker_job m worker])%list rest
  end.

(** [Coordinator._workers_scrape_jobs]. *)
Definition _workers_scrape_jobs (m : Monitoring) : list ScrapeJob :=
  workers_scrape_loop m [] (gather_topology m).

(** [Coordinator._nginx_scrape_jobs]. *)
Definition _nginx_scrape_jobs (m : Monitoring) : list ScrapeJob :=
  [ {| static_configs := [[host_port (hostname m) (nginx_port m)]];
       relabel_configs := None |} ].

(** [Coordinator._scrape_jobs]. *)
Definition _scrape_jobs (m : Monitoring) : list ScrapeJob :=
  (_workers_scrape_jobs m ++ _nginx_scrape_jobs m)%list.

(** *** Alert rules *)

Definition CONSOLIDATED_ALERT_RULES_PATH : string :=
  "./src/prometheus_alert_rules/consolidated_rules".

(** [s] without the prefix [p], when it starts with it. *)
Fixpoint drop_prefix (p s : string) : option string :=
  match p, s with
  | EmptyString, _ => Some s
  | String a p', String b s' => if Ascii.eqb a b then drop_prefix p' s' else None
  | String _ _, EmptyString => None
  end.

Fixpoint has_slash (s : string) : bool :=
  match s with
  | EmptyString => false
  | String c s' => Ascii.eqb c "/"%char || has_slash s'
  end.

(** The paths that [glob.glob(f"{CONSOLIDATED_ALERT_RULES_PATH}/rendered_*")]
    returns: the star does not cross a directory separator. *)
Definition is_rendered (path : string) : bool :=
  match drop_prefix (String.append CONSOLIDATED_ALERT_RULES_PATH "/rendered_") path with
  | Some rest => negb (has_slash rest)
  | None => false
  end.

(** [Coordinator._remove_rendered_alert_rules] on the files, by path. *)
Definition _remove_rendered_alert_rules (files : gmap string string) : gmap string string :=
  filter (fun entry => is_rendered (fst entry) = false) files.

(** The dictionary from which the topology of a rule file is made. *)
Record TopologyDict : Type := {
  td_model : string;
  td_model_uuid : string;
  td_application : string;
  td_unit : string;
  td_charm_name : string
}.

Definition topology_dict (m : Monitoring) (worker : WorkerTopology) : TopologyDict := {|
  td_model := model_name m;
  td_model_uuid := model_uuid m;
  td_application := worker_application worker;
  td_unit := worker_unit worker;
  td_charm_name := worker_charm_name worker
|}.

(** [f"{CONSOLIDATED_ALERT_RULES_PATH}/rendered_{worker['application']}.rules"]. *)
Definition rendered_file_name (worker : WorkerTopology) : string :=
  String.append CONSOLIDATED_ALERT_RULES_PATH
    (String.append "/rendered_" (String.append (worker_application worker) ".rules")).

Section AlertRules.
(** The text that [yaml.dump(alert_rules.as_dict())] gives for the rules of
    the worker rules path under a topology: [cosl.AlertRules] is outside
    the coordinator. *)
Variable alert_rules_contents : TopologyDict -> string.

(** The loop of [_render_workers_alert_rules]: a worker whose application
    was seen is passed over, another has its file written. *)
Fixpoint render_workers_loop (m : Monitoring) (apps : gset string)
    (files : gmap string string) (workers : list WorkerTopology)
  : gmap string string :=
  match workers with
  | [] => files
  | worker :: rest =>
      if bool_decide (worker_application worker ∈ apps) then
        render_workers_loop m apps files rest
      else
        render_workers_loop m ({[worker_application worker]} ∪ apps)
          (<[rendered_file_name worker :=
               alert_rules_contents (topology_dict m worker)]> files) rest
  end.

(** [Coordinator._render_workers_alert_rules]. *)
Definition _render_workers_alert_rules (m : Monitoring)
    (files : gmap string string) : gmap string string :=
  render_workers_loop m ∅ (_remove_rendered_alert_rules files) (gather_topology m).

End AlertRules.

(** *** Peers *)

(** What [model.get_binding("peers")] gives: nothing, an exception of the
    two classes that [_local_ip] catches, or a binding with the text of its
    bind address. *)
Inductive PeersBinding : Type :=
  | NoBinding
  | BindingRaises
  | BoundTo (bind_address : string).

(** The peer relation, when there is one: for each remote unit the value of
    ["local-ip"] in its data, when it has the key; and the binding. *)
Record Peers : Type := {
  peers_relation : option (list (option string));
  peers_binding : PeersBinding
}.

(** [Coordinator._local_ip]; the log lines are left out. *)
Definition _local_ip (p : Peers) : option string :=
  match peers_binding p with
  | NoBinding => None
  | BindingRaises => None
  | BoundTo bind_address => Some bind_address
  end.

(** Python's truth value of an optional string. *)
Definition truthy (x : option string) : bool :=
  match x with
  | Some s => negb (String.eqb s "")
  | None => false
  end.

(** [list(filter(None, addresses))]. *)
Fixpoint filter_none (addresses : list (option string)) : list string :=
  match addresses with
  | [] => []
  | Some s :: rest => if truthy (Some s) then s :: filter_none rest else filter_none rest
  | None :: rest => filter_none rest
  end.

(** [Coordinator.peer_addresses]: [peers] is a set, false when empty. *)
Definition peer_addresses (p : Peers) : list string :=
  let addresses :=
    match peers_relation p with
    | Some (unit_ip :: others) => filter_none (unit_ip :: others)
    | _ => []
    end in
  match _local_ip p with
  | Some own => if truthy (Some own) then (addresses ++ [own])%list else addresses
  | None => addresses
  end.

(** ** More sample deployments *)

(** The certificate handler once the certificates are there. *)
Definition with_tls : CertHandler := {|
  enabled := true;
  server_cert := Some "server cert";
  private_key := Some "private key";
  ca_cert := Some "ca cert"
|}.

(** The healthy deployment with TLS, a tracing getter and given Loki units. *)
Definition secured (units : list RelationUnit) : Coordinator := {|
  roles_config := loki_roles;
  cluster := three_workers;
  _is_coherent := None;
  _is_recommended := None;
  _tracing_receivers_getter := Some {[ "otlp_http" := "1.2.3.4:4318" ]};
  _workers_config_getter := "workers configuration for foo-app";
  cert_handler := with_tls;
  get_s3_connection_info := s3_data_with "s3";
  is_leader := true;
  grant_privkey := "secret:privkey";
  logging_relations := [units]
|}.

(** Two workers of one application and one of another. *)
Definition read_worker (n : string) : WorkerTopology := {|
  worker_unit := String.append "read/" n;
  worker_application := "read";
  worker_charm_name := "worker-k8s";
  worker_address := String.append "read-" n
|}.

Definition write_worker : WorkerTopology := {|
  worker_unit := "write/0";
  worker_application := "write";
  worker_charm_name := "worker-k8s";
  worker_address := "write-0"
|}.

Definition sample_monitoring : Monitoring := {|
  gather_topology := [read_worker "0"; read_worker "1"; write_worker];
  _worker_metrics_port := 123;
  hostname := "foo.example.com";
  nginx_port := 8080;
  model_name := "test";
  model_uuid := "00000000-0000-4000-8000-000000000000"
|}.

(** Rule contents that name the unit they were rendered for. *)
Definition sample_contents (td : TopologyDict) : string :=
  String.append "rules for " (td_unit td).

Definition sample_peers : Peers := {|
  peers_relation := Some [Some "10.0.0.2"; None; Some ""; Some "10.0.0.3"];
  peers_binding := BoundTo "10.0.0.1"
|}.

(** A [publish_data] call, among the actions. *)
Definition is_publish (a : action) : bool :=
  match a with
  | PublishData _ => true
  | _ => false
  end.

(** The bundle that [update_cluster] passes to [publish_data] once the
    Loki endpoints are collected. *)
Definition bundle_of (self : Coordinator) (endpoints : gmap string json) : PublishedData := {|
  worker_config := _workers_config_getter self;
  loki_endpoints := endpoints;
  tls_data :=
    if tls_available self then
      Some {| tls_ca_cert := ca_cert (cert_handler self);
              tls_server_cert := server_cert (cert_handler self);
              privkey_secret_id := grant_privkey self |}
    else None;
  tracing_receivers := _tracing_receivers_getter self
|}.

(** The worker at position [i] is the first of its application. *)
Definition first_of_application (workers : list WorkerTopology) (i : nat)
    (worker : WorkerTopology) : Prop :=
  workers !! i = Some worker
  /\ forall j other, (j < i)%nat -> workers !! j = Some other ->
       worker_application other <> worker_application worker.

(** A rules directory with a rendered file to rewrite, a stale one, and
    the rules of Nginx. *)
Definition nginx_rules_path : string :=
  String.append CONSOLIDATED_ALERT_RULES_PATH "/nginx.rules".

Definition sample_files : gmap string string :=
  {[ rendered_file_name write_worker := "old rules";
     String.append CONSOLIDATED_ALERT_RULES_PATH "/rendered_gone.rules" := "stale";
     nginx_rules_path := "nginx rules" ]}.

(** A unit announcing another push endpoint under a given name. *)
Definition other_loki_unit (name : string) : RelationUnit := {|
  unit_name := name;
  unit_data := {[ "endpoint" :=
    String.append "{" (String.append (quoted "url")
      (String.append ": " (String.append (quoted "http://other:3100/push") "}"))) ]}
|}.

(** ** Plain schemes and hosts *)






(** A cluster with more workers than [nine_workers] has. *)
Definition more_workers : ClusterProvider := {|
  has_workers := true;
  gather_roles := {[ "read" := 4; "write" := 3; "backend" := 5 ]}
|}.

(** * Properties *)

(** Membership in a list given by its elements. *)
Ltac in_list := repeat first [by left | right].

(** Closes a goal about each element of a list given by its elements. *)
Ltac each_member H :=
  repeat (apply elem_of_cons in H as [H|H];
          [first [discriminate H
                 | injection H as -> ->; first [in_list | done]
                 | subst; first [in_list | done]]|]);
  by apply elem_of_nil in H.

(** ** Coherence *)

Lemma is_coherent_default (self : Coordinator) :
  _is_coherent self = None ->
  is_coherent self = true <->
  py_set (minimal_deployment (roles_config self)) ⊆ dom (gather_roles (cluster self)).
Proof.
  intros Hnone. unfold is_coherent. rewrite Hnone. simpl.
  apply bool_decide_eq_true.
Qed.

(** C2: without a custom checker, [is_coherent] is true exactly when every
    role of the minimal deployment is a key of the gathered role counts;
    with a custom checker, [is_coherent] is the checker's answer on the
    cluster and the role configuration. *)
Theorem is_coherent_rule (self : Coordinator) :
  (_is_coherent self = None ->
   (is_coherent self = true <->
    forall role, role ∈ minimal_deployment (roles_config self) ->
                 is_Some (gather_roles (cluster self) !! role)))
  /\ (forall checker, _is_coherent self = Some checker ->
      is_coherent self = checker (cluster self) (roles_config self)).
Proof.
  split.
  - intros Hnone. rewrite (is_coherent_default self Hnone). unfold py_set.
    split.
    + intros Hsub role Hin. apply elem_of_dom, Hsub.
      by apply elem_of_list_to_set.
    + intros Hall role Hin. apply elem_of_dom, Hall.
      by apply elem_of_list_to_set in Hin.
  - intros checker Hsome. unfold is_coherent. by rewrite Hsome.
Qed.

Lemma is_coherent_rule_witness :
  (is_coherent (plain_coordinator loki_roles no_backend true ∅ []) = true <->
   forall role, role ∈ ["read"; "write"; "backend"] ->
                is_Some (gather_roles no_backend !! role))
  /\ is_coherent (custom_coordinator (fun _ _ => true)) = true.
Proof.
  split.
  - apply (proj1 (is_coherent_rule
                    (plain_coordinator loki_roles no_backend true ∅ []))).
    reflexivity.
  - apply (proj2 (is_coherent_rule (custom_coordinator (fun _ _ => true)))
                  (fun _ _ => true)).
    reflexivity.
Defined.

(** C10: without a custom checker, [is_coherent] is true exactly when
    [missing_roles] is the empty set. *)
Theorem is_coherent_iff_no_missing_roles (self : Coordinator) :
  _is_coherent self = None ->
  is_coherent self = true <-> missing_roles self = ∅.
Proof.
  intros Hnone. rewrite (is_coherent_default self Hnone). unfold missing_roles.
  split.
  - intros Hsub. apply set_eq. intros role.
    rewrite elem_of_difference. split.
    + intros [Hin Hout]. destruct Hout. by apply Hsub.
    + intros Habs. by apply not_elem_of_empty in Habs.
  - intros Hempty role Hin.
    destruct (decide (role ∈ dom (gather_roles (cluster self)))) as [|Hout];
      [done|].
    assert (role ∈ (∅ : gset string)) as Habs.
    { rewrite <- Hempty. by apply elem_of_difference. }
    by apply not_elem_of_empty in Habs.
Qed.

Lemma is_coherent_iff_no_missing_roles_witness :
  is_coherent (plain_coordinator loki_roles three_workers true ∅ []) = true
  <-> missing_roles (plain_coordinator loki_roles three_workers true ∅ []) = ∅.
Proof.
  apply (is_coherent_iff_no_missing_roles
           (plain_coordinator loki_roles three_workers true ∅ [])).
  reflexivity.
Defined.

(** ** Recommended deployment *)

Lemma recommended_loop_false (rls : gmap string Z) (items : list (string * Z)) :
  recommended_loop rls items = false <->
  exists role min_n, (role, min_n) ∈ items /\ roles_get rls role < min_n.
Proof.
  induction items as [|[role min_n] rest IH]; simpl.
  - split; [discriminate|]. intros (role & min_n & Hin & _).
    by apply elem_of_nil in Hin.
  - destruct (Z.ltb_spec (roles_get rls role) min_n) as [Hlt|Hge].
    + split; [|done]. intros _. exists role, min_n. split; [left|done].
    + rewrite IH. split.
      * intros (r & n & Hin & Hlt). exists r, n. split; [by right|done].
      * intros (r & n & Hin & Hlt). apply elem_of_cons in Hin as [Heq|Hin].
        -- injection Heq as -> ->. lia.
        -- by exists r, n.
Qed.

Lemma recommended_loop_true (rls : gmap string Z) (items : list (string * Z)) :
  recommended_loop rls items = true <->
  forall role min_n, (role, min_n) ∈ items -> min_n <= roles_get rls role.
Proof.
  rewrite <- not_false_iff_true, recommended_loop_false. split.
  - intros Hno role min_n Hin.
    destruct (Z.le_gt_cases min_n (roles_get rls role)) as [|Hlt]; [done|].
    destruct Hno. by exists role, min_n.
  - intros Hall (role & min_n & Hin & Hlt). specialize (Hall _ _ Hin). lia.
Qed.

(** C6: without a custom checker, [is_recommended] is [None] when the
    recommended deployment is empty; otherwise it is [False] when some listed
    role has a gathered count (0 when the role is absent) below its minimum,
    and [True] when every listed role reaches its minimum. *)
Theorem is_recommended_rule (self : Coordinator) :
  _is_recommended self = None ->
  let recommended := recommended_deployment (roles_config self) in
  let count := roles_get (gather_roles (cluster self)) in
  (recommended = [] -> is_recommended self = None)
  /\ (recommended <> [] ->
      (exists role min_n, (role, min_n) ∈ recommended /\ count role < min_n) ->
      is_recommended self = Some false)
  /\ (recommended <> [] ->
      (forall role min_n, (role, min_n) ∈ recommended -> min_n <= count role) ->
      is_recommended self = Some true).
Proof.
  intros Hnone recommended count. unfold is_recommended. rewrite Hnone.
  subst recommended count. cbv zeta.
  destruct (recommended_deployment (roles_config self)) as [|item rest] eqn:Hrd.
  - split; [done|]. split; intros Hne; by destruct Hne.
  - split; [discriminate|]. split; intros _ Hcase; f_equal.
    + by apply recommended_loop_false.
    + by apply recommended_loop_true.
Qed.

Lemma is_recommended_rule_witness :
  is_recommended (plain_coordinator plain_roles three_workers true ∅ []) = None
  /\ is_recommended (plain_coordinator loki_roles three_workers true ∅ []) = Some false
  /\ is_recommended (plain_coordinator loki_roles nine_workers true ∅ []) = Some true.
Proof.
  split; [|split].
  - apply (is_recommended_rule
             (plain_coordinator plain_roles three_workers true ∅ []) eq_refl).
    reflexivity.
  - apply (is_recommended_rule
             (plain_coordinator loki_roles three_workers true ∅ []) eq_refl).
    + discriminate.
    + exists "read", 3. split; [by left|]. vm_compute. reflexivity.
  - apply (is_recommended_rule
             (plain_coordinator loki_roles nine_workers true ∅ []) eq_refl).
    + discriminate.
    + intros role min_n Hin. simpl in Hin.
      repeat (apply elem_of_cons in Hin as [[= -> ->]|Hin];
              [vm_compute; discriminate|]).
      by apply elem_of_nil in Hin.
Defined.

(** ** The reconciler *)

Section ReconcilerFacts.
Context `{PyLib}.

Lemma update_cluster_incoherent (self : Coordinator) :
  is_coherent self = false ->
  update_cluster self =
  Eff [NginxConfigurePebbleLayer; NginxExporterConfigurePebbleLayer;
       LogError "skipped cluster update: incoherent deployment"] (Return tt).
Proof. intros Hinc. unfold update_cluster. rewrite Hinc. reflexivity. Qed.

Lemma update_cluster_follower (self : Coordinator) :
  is_coherent self = true -> is_leader self = false ->
  update_cluster self =
  Eff [NginxConfigurePebbleLayer; NginxExporterConfigurePebbleLayer] (Return tt).
Proof.
  intros Hcoh Hfol. unfold update_cluster. rewrite Hcoh, Hfol. reflexivity.
Qed.

(** C1: when the deployment is not coherent or the unit is not the leader,
    [update_cluster] makes no [publish_data] call; a [publish_data] call is
    made only when the deployment is coherent and the unit is the leader. *)
Theorem update_cluster_publish_gate (self : Coordinator) :
  (is_coherent self = false \/ is_leader self = false ->
   forall data, PublishData data ∉ trace (update_cluster self))
  /\ (forall data, PublishData data ∈ trace (update_cluster self) ->
      is_coherent self = true /\ is_leader self = true).
Proof.
  assert (is_coherent self = false \/ is_leader self = false ->
          forall data, PublishData data ∉ trace (update_cluster self)) as Hgate.
  { intros Hcase data Hin.
    destruct (is_coherent self) eqn:Hcoh.
    - destruct Hcase as [|Hfol]; [discriminate|].
      rewrite (update_cluster_follower self Hcoh Hfol) in Hin. simpl in Hin.
      repeat (apply elem_of_cons in Hin as [|Hin]; [discriminate|]).
      by apply elem_of_nil in Hin.
    - rewrite (update_cluster_incoherent self Hcoh) in Hin. simpl in Hin.
      repeat (apply elem_of_cons in Hin as [|Hin]; [discriminate|]).
      by apply elem_of_nil in Hin. }
  split; [exact Hgate|].
  intros data Hin.
  destruct (is_coherent self) eqn:Hcoh, (is_leader self) eqn:Hlead;
    try done; exfalso; eapply Hgate; eauto.
Qed.

End ReconcilerFacts.

Lemma update_cluster_publish_gate_witness :
  is_leader (plain_coordinator loki_roles three_workers false
                               (s3_data_with "s3") []) = false
  /\ forall data,
       PublishData data ∉
         trace (update_cluster (plain_coordinator loki_roles three_workers false
                                                  (s3_data_with "s3") [])).
Proof.
  split; [reflexivity|].
  apply (proj1 (update_cluster_publish_gate
                  (plain_coordinator loki_roles three_workers false
                                     (s3_data_with "s3") []))).
  right. reflexivity.
Defined.

(** ** Object storage *)

Section ObjectStorage.
Context `{PyLib}.

Lemma dict_contains_true (key : string) (d : gmap string string) :
  dict_contains key d = true <-> is_Some (d !! key).
Proof. apply bool_decide_eq_true. Qed.

(** The guard of [_s3_config] passes exactly when the four keys are there. *)
Lemma s3_guard (d : gmap string string) :
  bool_decide (d ≠ ∅) && dict_contains "bucket" d && dict_contains "endpoint" d
  && dict_contains "access-key" d && dict_contains "secret-key" d = true
  <-> s3_fields_present d.
Proof.
  unfold s3_fields_present. rewrite !andb_true_iff, !dict_contains_true.
  rewrite bool_decide_eq_true. split; [tauto|].
  intros (Hb & He & Ha & Hs). repeat split; try done.
  intros ->. destruct Hb as [b Hb]. by rewrite lookup_empty in Hb.
Qed.

Lemma s3_config_absent (self : Coordinator) :
  ~ s3_fields_present (get_s3_connection_info self) ->
  _s3_config self = Raise (S3NotFoundError "s3 integration inactive").
Proof.
  intros Habs. unfold _s3_config.
  destruct (bool_decide _ && _ && _ && _ && _) eqn:Hguard; [|reflexivity].
  destruct Habs. by apply s3_guard.
Qed.

Lemma s3_config_present (self : Coordinator) (raw : string) :
  let d := get_s3_connection_info self in
  s3_fields_present d -> d !! "endpoint" = Some raw ->
  _s3_config self =
  endpoint_ ← normalise_endpoint raw;
  Return {| insecure := negb (startswith raw "https://");
            endpoint := endpoint_;
            region := default "" (d !! "region");
            access_key_id := default "" (d !! "access-key");
            secret_access_key := default "" (d !! "secret-key");
            bucket_name := default "" (d !! "bucket") |}.
Proof.
  intros d Hpresent Hraw. unfold _s3_config. fold d.
  apply s3_guard in Hpresent as Hguard. rewrite Hguard. simpl.
  destruct Hpresent as ([b Hb] & _ & [a Ha] & [k Hk]).
  unfold dict_getitem, normalise_endpoint. rewrite Hraw, Hb, Ha, Hk. simpl.
  destruct (urlparse_scheme raw) as [scheme|]; simpl; [|reflexivity].
  destruct (re_sub_scheme scheme raw) as [stripped|]; reflexivity.
Qed.

Lemma normalise_endpoint_raises (raw : string) (e : exn) :
  normalise_endpoint raw = Raise e -> e = ValueError \/ e = ReError.
Proof.
  unfold normalise_endpoint.
  destruct (urlparse_scheme raw) as [scheme|]; simpl; [|intros [= <-]; by left].
  destruct (re_sub_scheme scheme raw); simpl; [discriminate|].
  intros [= <-]. by right.
Qed.

(** C5, as the code has it: [_s3_config] raises
    [S3NotFoundError("s3 integration inactive")] exactly when one of the four
    mandatory keys is absent from the connection info, whatever the values of
    the keys that are there; [s3_ready] is false exactly in that case; when the
    four keys are present, [s3_ready] is true if the scheme stripping of the
    endpoint returns, and otherwise raises the [ValueError] or [re.error] of
    the stripping. *)
Theorem s3_config_not_found_rule (self : Coordinator) :
  let d := get_s3_connection_info self in
  (_s3_config self = Raise (S3NotFoundError "s3 integration inactive")
   <-> ~ s3_fields_present d)
  /\ (s3_ready self = Return false <-> ~ s3_fields_present d)
  /\ (s3_fields_present d ->
      forall raw, d !! "endpoint" = Some raw ->
        match normalise_endpoint raw with
        | Return _ => s3_ready self = Return true
        | Raise e => s3_ready self = Raise e /\ (e = ValueError \/ e = ReError)
        end).
Proof.
  intros d.
  assert (s3_fields_present d ->
          forall raw, d !! "endpoint" = Some raw ->
            match normalise_endpoint raw with
            | Return _ => s3_ready self = Return true
                          /\ exists cfg, _s3_config self = Return cfg
            | Raise e => s3_ready self = Raise e /\ _s3_config self = Raise e
                         /\ (e = ValueError \/ e = ReError)
            end) as Hpresent.
  { intros Hp raw Hraw. unfold s3_ready.
    rewrite (s3_config_present self raw Hp Hraw).
    destruct (normalise_endpoint raw) as [stripped|e] eqn:Hn; simpl.
    - split; [reflexivity|]. eauto.
    - destruct (normalise_endpoint_raises raw e Hn) as [-> | ->]; auto. }
  destruct (decide (s3_fields_present d)) as [Hp|Habs].
  - pose proof Hp as (_ & [raw Hraw] & _).
    specialize (Hpresent Hp raw Hraw).
    split; [|split].
    + split; [|done]. intros Hraise.
      destruct (normalise_endpoint raw) as [stripped|e].
      * destruct Hpresent as [_ [cfg Hcfg]]. congruence.
      * destruct Hpresent as (_ & Hcfg & [-> | ->]); congruence.
    + split; [|done]. intros Hfalse.
      destruct (normalise_endpoint raw) as [stripped|e].
      * destruct Hpresent as [Hready _]. congruence.
      * destruct Hpresent as [Hready _]. congruence.
    + intros _ raw' Hraw'. assert (raw' = raw) as -> by congruence.
      destruct (normalise_endpoint raw); tauto.
  - pose proof (s3_config_absent self Habs) as Hraise.
    split; [|split]; [done| |done].
    unfold s3_ready. by rewrite Hraise.
Qed.


End ObjectStorage.

Lemma s3_config_not_found_rule_witness :
  s3_ready (plain_coordinator loki_roles three_workers true ∅ []) = Return false
  /\ s3_ready (with_endpoint "s3") = Return true.
Proof.
  split.
  - apply (proj1 (proj2 (s3_config_not_found_rule
                           (plain_coordinator loki_roles three_workers true ∅ [])))).
    intros ([b Hb] & _). vm_compute in Hb. discriminate.
  - apply (proj2 (proj2 (s3_config_not_found_rule (with_endpoint "s3"))) 
             ltac:(vm_compute; repeat split; eauto) "s3" eq_refl).
Defined.

(** C5 as stated fails where a mandatory field is present and empty: with an
    empty endpoint no [S3NotFoundError] is raised and [s3_ready] is true. *)
Lemma s3_empty_field_counterexample :
  get_s3_connection_info (with_endpoint "") !! "endpoint" = Some ""
  /\ _s3_config (with_endpoint "") =
     Return {| insecure := true; endpoint := ""; region := "";
               access_key_id := "my-access-key";
               secret_access_key := "my-secret-key";
               bucket_name := "foo-bucket" |}
  /\ s3_ready (with_endpoint "") = Return true.
Proof. vm_compute. auto. Qed.

(** With the four keys present, a malformed endpoint makes [s3_ready] raise
    rather than answer. *)
Example s3_ready_raises_on_bad_netloc :
  s3_ready (with_endpoint "http://[bucket") = Raise ValueError.
Proof. vm_compute. reflexivity. Qed.

(** *** The library model on plain schemes and hosts *)























(** ** Status *)

(** C3 fails on the code: with s3 ready and no recommended deployment
    configured, [is_recommended] is [None] and the status added is the
    degraded one. *)
Theorem collect_status_degraded_without_criterion :
  is_recommended healthy_plain = None
  /\ s3_ready healthy_plain = Return true
  /\ _on_collect_unit_status healthy_plain =
     Eff [AddStatus (ActiveStatus "[coordinator] Degraded.")] (Return tt).
Proof. vm_compute. auto. Qed.

(** ** Loki endpoints *)

Section LokiEndpoints.
Context `{PyLib}.

Lemma loki_unit_step_eq (endpoints : gmap string json) (u : RelationUnit) :
  loki_unit_step endpoints u =
  if has_endpoint u then
    url ← unit_url u; Return (<[unit_name u := url]> endpoints)
  else Return endpoints.
Proof.
  unfold loki_unit_step, unit_url, has_endpoint.
  destruct (dict_contains "endpoint" (unit_data u)); simpl; [|reflexivity].
  destruct (dict_getitem (unit_data u) "endpoint") as [ep|]; simpl; [|reflexivity].
  destruct (json_loads ep) as [doc|]; simpl; [|reflexivity].
  destruct (json_getitem doc "url"); reflexivity.
Qed.

Lemma loki_units_loop_app (endpoints : gmap string json) (us vs : list RelationUnit) :
  loki_units_loop endpoints (us ++ vs) =
  endpoints' ← loki_units_loop endpoints us; loki_units_loop endpoints' vs.
Proof.
  revert endpoints. induction us as [|u us IH]; intros endpoints; simpl.
  - reflexivity.
  - destruct (loki_unit_step endpoints u) as [endpoints'|e]; simpl; [|reflexivity].
    apply IH.
Qed.

(** The two nested loops visit the units of all relations in order. *)
Lemma loki_relations_loop_concat (endpoints : gmap string json)
    (relations : list (list RelationUnit)) :
  loki_relations_loop endpoints relations =
  loki_units_loop endpoints (concat relations).
Proof.
  revert endpoints. induction relations as [|r rs IH]; intros endpoints; simpl.
  - reflexivity.
  - rewrite loki_units_loop_app.
    destruct (loki_units_loop endpoints r); simpl; [apply IH|reflexivity].
Qed.

(** A unit without an endpoint leaves the loop as it found it. *)
Lemma loki_units_loop_skip (endpoints : gmap string json) (us : list RelationUnit) :
  loki_units_loop endpoints us =
  loki_units_loop endpoints (List.filter has_endpoint us).
Proof.
  revert endpoints. induction us as [|u us IH]; intros endpoints; simpl.
  - reflexivity.
  - rewrite loki_unit_step_eq. destruct (has_endpoint u) eqn:Hu; simpl.
    + rewrite loki_unit_step_eq, Hu.
      destruct (unit_url u); simpl; [apply IH|reflexivity].
    + apply IH.
Qed.

Lemma concat_filter_units (relations : list (list RelationUnit)) :
  concat (map (List.filter has_endpoint) relations) =
  List.filter has_endpoint (concat relations).
Proof.
  induction relations as [|r rs IH]; simpl; [reflexivity|].
  by rewrite List.filter_app, IH.
Qed.

(** When every unit with an endpoint yields a url, the loop returns, keeps
    what it had, and holds an entry for each such unit; each entry is what
    it had or the url of a unit of that name. *)
Lemma loki_units_loop_returns (us : list RelationUnit) :
  forall endpoints : gmap string json,
  (forall u, u ∈ us -> has_endpoint u = true ->
             exists url, unit_url u = Return url) ->
  exists endpoints',
    loki_units_loop endpoints us = Return endpoints'
    /\ (forall name, is_Some (endpoints !! name) -> is_Some (endpoints' !! name))
    /\ (forall u, u ∈ us -> has_endpoint u = true ->
                  is_Some (endpoints' !! unit_name u))
    /\ (forall name url, endpoints' !! name = Some url ->
          endpoints !! name = Some url
          \/ exists u, u ∈ us /\ has_endpoint u = true
                       /\ unit_name u = name /\ unit_url u = Return url).
Proof.
  induction us as [|u us IH]; intros endpoints Hgood; simpl.
  - exists endpoints. split; [reflexivity|]. split; [done|]. split; [|by left].
    intros u Hin. by apply elem_of_nil in Hin.
  - rewrite loki_unit_step_eq. destruct (has_endpoint u) eqn:Hu.
    + destruct (Hgood u) as [url Hurl]; [by left|done|]. rewrite Hurl. simpl.
      destruct (IH (<[unit_name u := url]> endpoints)) as (eps & Hrun & Hkeep & Hall & Hfrom).
      { intros v Hv. apply Hgood. by right. }
      exists eps. split; [done|]. split; [|split].
      * intros name Hname. apply Hkeep.
        destruct (decide (unit_name u = name)) as [<-|Hne].
        -- rewrite lookup_insert_eq. eauto.
        -- by rewrite lookup_insert_ne.
      * intros v Hv Hvend. apply elem_of_cons in Hv as [->|Hv]; [|by apply Hall].
        apply Hkeep. rewrite lookup_insert_eq. eauto.
      * intros name url' Hlook. destruct (Hfrom name url' Hlook) as [Hins|Hex].
        -- destruct (decide (unit_name u = name)) as [<-|Hne].
           ++ rewrite lookup_insert_eq in Hins. injection Hins as <-.
              right. exists u. repeat split; try done. by left.
           ++ rewrite lookup_insert_ne in Hins by done. by left.
        -- destruct Hex as (v & Hv & Hvend & Hvname & Hvurl).
           right. exists v. repeat split; try done. by right.
    + simpl. destruct (IH endpoints) as (eps & Hrun & Hkeep & Hall & Hfrom).
      { intros v Hv. apply Hgood. by right. }
      exists eps. split; [done|]. split; [done|]. split.
      * intros v Hv Hvend. apply elem_of_cons in Hv as [->|Hv]; [congruence|].
        by apply Hall.
      * intros name url Hlook. destruct (Hfrom name url Hlook) as [|Hex]; [by left|].
        destruct Hex as (v & Hv & Hrest). right. exists v. split; [by right|done].
Qed.

(** One unit whose endpoint does not yield a url makes the loop raise. *)
Lemma loki_units_loop_raises (us : list RelationUnit) :
  forall endpoints : gmap string json,
  (exists u e, u ∈ us /\ has_endpoint u = true /\ unit_url u = Raise e) ->
  exists e, loki_units_loop endpoints us = Raise e.
Proof.
  induction us as [|u us IH]; intros endpoints (v & e & Hin & Hend & Hbad).
  - by apply elem_of_nil in Hin.
  - simpl. rewrite loki_unit_step_eq.
    apply elem_of_cons in Hin as [->|Hin].
    + rewrite Hend, Hbad. simpl. eauto.
    + destruct (has_endpoint u).
      * destruct (unit_url u) as [url|e']; simpl; [|eauto].
        apply IH. eauto.
      * simpl. apply IH. eauto.
Qed.

Lemma update_cluster_loki_raises (self : Coordinator) (e : exn) :
  is_coherent self = true -> is_leader self = true ->
  loki_endpoints_by_unit self = Raise e ->
  update_cluster self =
  Eff [NginxConfigurePebbleLayer; NginxExporterConfigurePebbleLayer] (Raise e).
Proof.
  intros Hcoh Hlead Hloki. unfold update_cluster.
  rewrite Hcoh, Hlead, Hloki. reflexivity.
Qed.

(** C4, as the code has it: a unit whose relation data has no ["endpoint"]
    is skipped; when every unit that has one yields a url, the collection
    returns and holds an entry for each of them, each entry being the url of
    a unit of that name; a unit whose endpoint does not parse as JSON, or
    parses to a value without a ["url"] member, makes the collection raise,
    and [update_cluster] of a coherent leader raises with it after the two
    Pebble layers, publishing nothing. *)
Theorem loki_endpoints_by_unit_rule (self : Coordinator) :
  let units := concat (logging_relations self) in
  loki_endpoints_by_unit self =
    loki_endpoints_by_unit
      (with_logging self (map (List.filter has_endpoint) (logging_relations self)))
  /\ ((forall u, u ∈ units -> has_endpoint u = true ->
                 exists url, unit_url u = Return url) ->
      exists endpoints,
        loki_endpoints_by_unit self = Return endpoints
        /\ (forall u, u ∈ units -> has_endpoint u = true ->
                      is_Some (endpoints !! unit_name u))
        /\ (forall name url, endpoints !! name = Some url ->
              exists u, u ∈ units /\ has_endpoint u = true
                        /\ unit_name u = name /\ unit_url u = Return url))
  /\ ((exists u e, u ∈ units /\ has_endpoint u = true /\ unit_url u = Raise e) ->
      exists e,
        loki_endpoints_by_unit self = Raise e
        /\ (is_coherent self = true -> is_leader self = true ->
            update_cluster self =
            Eff [NginxConfigurePebbleLayer; NginxExporterConfigurePebbleLayer]
                (Raise e))).
Proof.
  intros units. unfold loki_endpoints_by_unit. simpl.
  rewrite !loki_relations_loop_concat. fold units.
  split; [|split].
  - rewrite concat_filter_units. apply loki_units_loop_skip.
  - intros Hgood.
    destruct (loki_units_loop_returns units ∅ Hgood) as (eps & Hrun & _ & Hall & Hfrom).
    exists eps. split; [done|]. split; [done|].
    intros name url Hlook. destruct (Hfrom name url Hlook) as [Hempty|]; [|done].
    by rewrite lookup_empty in Hempty.
  - intros Hbad. destruct (loki_units_loop_raises units ∅ Hbad) as [e Hrun].
    exists e. split; [done|]. intros Hcoh Hlead.
    apply update_cluster_loki_raises; try done.
    unfold loki_endpoints_by_unit. by rewrite loki_relations_loop_concat.
Qed.

End LokiEndpoints.

Lemma loki_endpoints_by_unit_rule_witness :
  exists endpoints,
    loki_endpoints_by_unit (with_loki [loki_unit "loki/0"; silent_unit "loki/1"])
    = Return endpoints
    /\ (forall u, u ∈ [loki_unit "loki/0"; silent_unit "loki/1"] ->
                  has_endpoint u = true -> is_Some (endpoints !! unit_name u))
    /\ (forall name url, endpoints !! name = Some url ->
          exists u, u ∈ [loki_unit "loki/0"; silent_unit "loki/1"]
                    /\ has_endpoint u = true
                    /\ unit_name u = name /\ unit_url u = Return url).
Proof.
  apply (proj1 (proj2 (loki_endpoints_by_unit_rule
                         (with_loki [loki_unit "loki/0"; silent_unit "loki/1"])))).
  intros u Hin Hend. simpl in Hin.
  apply elem_of_cons in Hin as [->|Hin].
  - exists (JString loki_push_url). vm_compute. reflexivity.
  - apply elem_of_cons in Hin as [->|Hin].
    + vm_compute in Hend. discriminate.
    + by apply elem_of_nil in Hin.
Defined.

(** C4 as stated fails where an endpoint is not JSON: the collection raises
    although another unit is well-formed, and so does [update_cluster]. *)
Lemma loki_malformed_counterexample :
  unit_url (loki_unit "loki/0") = Return (JString loki_push_url)
  /\ loki_endpoints_by_unit (with_loki [loki_unit "loki/0"; garbled_unit "loki/1"])
     = Raise JSONDecodeError
  /\ update_cluster (with_loki [loki_unit "loki/0"; garbled_unit "loki/1"])
     = Eff [NginxConfigurePebbleLayer; NginxExporterConfigurePebbleLayer]
           (Raise JSONDecodeError).
Proof. vm_compute. auto. Qed.

(** ** Role configuration *)

Lemma issubset_true (xs : list string) (s : list string) :
  issubset xs (py_set s) = true <-> forall x, x ∈ xs -> x ∈ s.
Proof.
  unfold issubset, py_set. rewrite bool_decide_eq_true. split.
  - intros Hsub x Hx. apply (elem_of_list_to_set (C := gset string)).
    apply Hsub. by apply elem_of_list_to_set.
  - intros Hall x Hx. apply elem_of_list_to_set, Hall.
    by apply elem_of_list_to_set in Hx.
Qed.

(** Turns a passed subset test into the membership fact it stands for. *)
Ltac subset_elements H :=
  let H' := fresh in
  pose proof (proj1 (issubset_true _ _) H) as H'; clear H; rename H' into H.

Lemma assert_role_sets_cases (role_sets : list (list string)) (rs : list string) :
  (assert_role_sets role_sets (py_set rs) = Return tt
   /\ forall members, members ∈ role_sets -> forall role, role ∈ members -> role ∈ rs)
  \/ (assert_role_sets role_sets (py_set rs) = Raise AssertionError
      /\ exists members role, members ∈ role_sets /\ role ∈ members /\ role ∉ rs).
Proof.
  induction role_sets as [|members rest IH]; simpl.
  - left. split; [reflexivity|]. intros members Hin. by apply elem_of_nil in Hin.
  - destruct (issubset members (py_set rs)) eqn:Hsub; simpl.
    + subset_elements Hsub.
      destruct IH as [[Hok Hall]|[Hraise (m & r & Hm & Hr & Hout)]].
      * left. split; [done|]. intros m Hm.
        apply elem_of_cons in Hm as [->|Hm]; [done|by apply Hall].
      * right. split; [done|]. exists m, r. split; [by right|done].
    + right. split; [reflexivity|].
      assert (~ forall x, x ∈ members -> x ∈ rs) as Hnot.
      { intros Hall. pose proof (proj2 (issubset_true _ _) Hall). congruence. }
      assert (Exists (fun x => x ∉ rs) members) as Hex.
      { apply not_Forall_Exists; [intros x; apply _|].
        intros Hall. apply Hnot. by apply Forall_forall. }
      apply Exists_exists in Hex as (role & Hin & Hout).
      exists members, role. split; [by left|done].
Qed.

Lemma validate_roles_config_cases (rc : ClusterRolesConfig) :
  (validate_roles_config rc = Return tt /\ all_roles_defined rc)
  \/ (validate_roles_config rc = Raise AssertionError /\ ~ all_roles_defined rc).
Proof.
  unfold validate_roles_config, all_roles_defined, listed_roles_defined.
  destruct (issubset (map fst (meta_roles rc)) (py_set (roles rc))) eqn:Hkeys; simpl.
  2: { right. split; [reflexivity|]. intros (Hnames & _).
       assert (issubset (map fst (meta_roles rc)) (py_set (roles rc)) = true);
         [|congruence].
       apply issubset_true. intros name Hin.
       apply list_elem_of_fmap in Hin as ([n members] & -> & Hin). eauto. }
  subset_elements Hkeys.
  destruct (assert_role_sets_cases (map snd (meta_roles rc)) (roles rc))
    as [[-> Hmembers]|[-> (members & role & Hm & Hr & Hout)]]; simpl.
  2: { right. split; [reflexivity|]. intros (_ & Hmem & _).
       apply list_elem_of_fmap in Hm as ([name ms] & -> & Hm).
       apply Hout. eapply Hmem; eauto. }
  destruct (issubset (minimal_deployment rc) (py_set (roles rc))) eqn:Hmin; simpl.
  2: { right. split; [reflexivity|]. intros (_ & _ & Hminimal & _).
       pose proof (proj2 (issubset_true _ _) Hminimal). congruence. }
  subset_elements Hmin.
  destruct (issubset (map fst (recommended_deployment rc)) (py_set (roles rc)))
    eqn:Hrec; simpl.
  2: { right. split; [reflexivity|]. intros (_ & _ & _ & Hrecommended).
       assert (issubset (map fst (recommended_deployment rc)) (py_set (roles rc))
               = true); [|congruence].
       apply issubset_true. intros role Hin.
       apply list_elem_of_fmap in Hin as ([r n] & -> & Hin). eauto. }
  subset_elements Hrec.
  left. split; [reflexivity|]. repeat split.
  - intros name members Hin. apply Hkeys.
    apply list_elem_of_fmap. by exists (name, members).
  - intros name members Hin. apply Hmembers.
    apply list_elem_of_fmap. by exists (name, members).
  - done.
  - intros role min_n Hin. apply Hrec.
    apply list_elem_of_fmap. by exists (role, min_n).
Qed.

Section Construction.
Context `{PyLib}.

(** C8, as the code has it: when a meta-role name, a member of a meta-role,
    a member of the minimal deployment or a key of the recommended
    deployment is not among the roles, [validate_roles_config] fails with an
    [AssertionError] and so does the constructor, before it observes
    anything; when all of them are among the roles, validation returns. *)
Theorem validate_roles_config_rule (rc : ClusterRolesConfig) :
  (all_roles_defined rc -> validate_roles_config rc = Return tt)
  /\ (~ all_roles_defined rc ->
      validate_roles_config rc = Raise AssertionError
      /\ forall self, roles_config self = rc ->
                      __init__ self = Eff [] (Raise AssertionError)).
Proof.
  destruct (validate_roles_config_cases rc) as [[Hok Hdef]|[Hraise Hundef]].
  - split; [done|]. intros Hnot. by destruct Hnot.
  - split; [intros Hdef; by destruct Hundef|].
    intros _. split; [done|]. intros self <-.
    unfold __init__. rewrite Hraise. reflexivity.
Qed.

End Construction.

Lemma validate_roles_config_rule_witness :
  validate_roles_config loki_roles = Return tt
  /\ validate_roles_config alias_roles = Raise AssertionError.
Proof.
  split.
  - apply (proj1 (validate_roles_config_rule loki_roles)).
    repeat split; simpl.
    + intros name members Hin. apply list_elem_of_singleton in Hin as [= -> ->].
      in_list.
    + intros name members Hin role.
      apply list_elem_of_singleton in Hin as [= -> ->]. done.
    + intros role Hin. by right.
    + intros role min_n Hin. each_member Hin.
  - apply (proj2 (validate_roles_config_rule alias_roles)).
    intros (Hnames & _). specialize (Hnames "all" ["read"; "write"]).
    simpl in Hnames.
    assert ("all" ∈ ["read"; "write"]) as Hall by (apply Hnames; in_list).
    each_member Hall.
Defined.

(** C8 as stated fails for the name of a meta-role: every listed reference
    of [alias_roles] is a role, and validation fails. *)
Lemma validate_meta_role_name_counterexample :
  listed_roles_defined alias_roles
  /\ validate_roles_config alias_roles = Raise AssertionError.
Proof.
  split; [|vm_compute; reflexivity].
  repeat split; simpl.
  - intros name members Hin role.
    apply list_elem_of_singleton in Hin as [= -> ->]. done.
  - done.
  - intros role min_n Hin. each_member Hin.
Qed.

(** ** Registration of the handlers *)

Section Handlers.
Context `{PyLib}.

(** Past its three early returns the constructor binds every handler. *)
Lemma init_ready (self : Coordinator) :
  validate_roles_config (roles_config self) = Return tt ->
  has_workers (cluster self) = true -> is_coherent self = true ->
  s3_ready self = Return true ->
  __init__ self =
  Eff [Observe collect_unit_status OnCollectUnitStatus;
       Observe config_changed OnConfigChanged;
       Observe nginx_pebble_ready OnNginxPebbleReady;
       Observe nginx_prometheus_exporter_pebble_ready
               OnNginxPrometheusExporterPebbleReady;
       Observe s3_credentials_changed OnS3CredentialsChanged;
       Observe s3_credentials_gone OnS3CredentialsGone;
       Observe loki_push_api_endpoint_joined OnLokiRelationChanged;
       Observe loki_push_api_endpoint_departed OnLokiRelationChanged;
       Observe cert_changed OnCertHandlerChanged;
       Observe cluster_changed OnClusterChanged] (Return tt).
Proof.
  intros Hvalid Hworkers Hcoh Hs3. unfold __init__.
  rewrite Hvalid, Hworkers, Hcoh, Hs3. reflexivity.
Qed.

(** An early return leaves the status handler alone, after one log line. *)
Lemma init_gated (self : Coordinator) :
  validate_roles_config (roles_config self) = Return tt ->
  has_workers (cluster self) = false \/ is_coherent self = false
  \/ s3_ready self = Return false ->
  exists message,
    __init__ self = Eff [Observe collect_unit_status OnCollectUnitStatus; message]
                        (Return tt)
    /\ (forall ev h, message <> Observe ev h).
Proof.
  intros Hvalid Hgate. unfold __init__. rewrite Hvalid.
  destruct (has_workers (cluster self)) eqn:Hworkers.
  - destruct (is_coherent self) eqn:Hcoh.
    + destruct Hgate as [|[|Hs3]]; try discriminate. rewrite Hs3.
      eexists. split; [reflexivity|]. discriminate.
    + eexists. split; [reflexivity|]. discriminate.
  - eexists. split; [reflexivity|]. discriminate.
Qed.


End Handlers.



(** * Further properties *)

(** ** Readiness and the constructor *)

Section Readiness.
Context `{PyLib}.

(** An early return binds nothing to a reconciling notification. *)
Lemma gated_binds_nothing (self : Coordinator) :
  validate_roles_config (roles_config self) = Return tt ->
  has_workers (cluster self) = false \/ is_coherent self = false
  \/ s3_ready self = Return false ->
  outcome (__init__ self) = Return tt
  /\ forall ev, ev ∈ reconcile_events -> observers self ev = [].
Proof.
  intros Hvalid Hgate. unfold observers.
  destruct (init_gated self Hvalid Hgate) as (message & -> & Hmessage).
  split; [reflexivity|]. intros ev Hin. unfold reconcile_events in Hin.
  assert (ev <> collect_unit_status) as Hev.
  { intros ->.
    repeat (apply elem_of_cons in Hin as [Hin|Hin]; [discriminate Hin|]).
    by apply elem_of_nil in Hin. }
  simpl. destruct (decide (collect_unit_status = ev)) as [<-|_]; [done|].
  destruct message; try reflexivity.
  exfalso. exact (Hmessage _ _ eq_refl).
Qed.

(** X1: once the role configuration is valid, the constructor binds the
    reconciling handlers exactly when [can_handle_events] is true; when it is
    false none of them is bound, and when it raises the constructor raises
    the same exception. *)
Theorem can_handle_events_decides_registration (self : Coordinator) :
  validate_roles_config (roles_config self) = Return tt ->
  match can_handle_events self with
  | Return true =>
      outcome (__init__ self) = Return tt
      /\ forall ev, ev ∈ reconcile_events -> exists h, observers self ev = [h]
  | Return false =>
      outcome (__init__ self) = Return tt
      /\ forall ev, ev ∈ reconcile_events -> observers self ev = []
  | Raise e => outcome (__init__ self) = Raise e
  end.
Proof.
  intros Hvalid. unfold can_handle_events.
  destruct (has_workers (cluster self)) eqn:Hworkers;
    [|apply gated_binds_nothing; auto].
  destruct (is_coherent self) eqn:Hcoh; [|apply gated_binds_nothing; auto].
  destruct (s3_ready self) as [[|]|e] eqn:Hs3.
  - unfold observers. rewrite (init_ready self Hvalid Hworkers Hcoh Hs3).
    split; [reflexivity|]. intros ev Hin. unfold reconcile_events in Hin.
    repeat (apply elem_of_cons in Hin as [->|Hin]; [eexists; reflexivity|]).
    by apply elem_of_nil in Hin.
  - apply gated_binds_nothing; auto.
  - unfold __init__. rewrite Hvalid, Hworkers, Hcoh, Hs3. reflexivity.
Qed.

End Readiness.

Lemma can_handle_events_decides_registration_witness :
  can_handle_events lonely = Return false
  /\ match can_handle_events lonely with
     | Return true =>
         outcome (__init__ lonely) = Return tt
         /\ forall ev, ev ∈ reconcile_events -> exists h, observers lonely ev = [h]
     | Return false =>
         outcome (__init__ lonely) = Return tt
         /\ forall ev, ev ∈ reconcile_events -> observers lonely ev = []
     | Raise e => outcome (__init__ lonely) = Raise e
     end.
Proof.
  split; [reflexivity|].
  apply (can_handle_events_decides_registration lonely).
  vm_compute. reflexivity.
Defined.

(** ** The status handler *)

Section StatusHandler.
Context `{PyLib}.

Lemma collect_status_trace (self : Coordinator) (a : action) :
  a ∈ trace (_on_collect_unit_status self) -> exists s, a = AddStatus s.
Proof.
  unfold _on_collect_unit_status.
  destruct (has_workers (cluster self)), (is_coherent self),
    (s3_ready self) as [[|]|e], (is_recommended self) as [[|]|]; simpl;
    intros Hin;
    repeat (apply elem_of_cons in Hin as [->|Hin]; [eauto|]);
    by apply elem_of_nil in Hin.
Qed.

(** X2: the status handler does nothing but add statuses, at most three of
    them, and at least one when it returns. *)
Theorem collect_status_only_adds_statuses (self : Coordinator) :
  (forall a, a ∈ trace (_on_collect_unit_status self) -> exists s, a = AddStatus s)
  /\ (length (trace (_on_collect_unit_status self)) <= 3)%nat
  /\ (outcome (_on_collect_unit_status self) = Return tt ->
      (1 <= length (trace (_on_collect_unit_status self)))%nat).
Proof.
  unfold _on_collect_unit_status.
  destruct (has_workers (cluster self)), (is_coherent self),
    (s3_ready self) as [[|]|e], (is_recommended self) as [[|]|]; simpl;
    (split; [|split; [lia|first [lia|discriminate]]]);
    intros a Hin;
    repeat (apply elem_of_cons in Hin as [->|Hin]; [eauto|]);
    by apply elem_of_nil in Hin.
Qed.

(** X3: the only status added is the plain active one exactly when there
    are workers, the deployment is coherent, s3 is ready and the recommended
    deployment is met. *)
Theorem collect_status_healthy_iff (self : Coordinator) :
  trace (_on_collect_unit_status self) = [AddStatus (ActiveStatus "")]
  <-> has_workers (cluster self) = true /\ is_coherent self = true
      /\ s3_ready self = Return true /\ is_recommended self = Some true.
Proof.
  unfold _on_collect_unit_status.
  destruct (has_workers (cluster self)), (is_coherent self),
    (s3_ready self) as [[|]|e], (is_recommended self) as [[|]|]; simpl;
    split; try discriminate; try done;
    intros (? & ? & ? & ?); discriminate.
Qed.

(** X4: an active status is added exactly when s3 is ready, beside whatever
    blocked statuses the workers and the coherence call for; the blocked s3
    status is added exactly when s3 is not ready; and the handler raises
    exactly when reading the s3 configuration raises. *)
Theorem collect_status_follows_s3 (self : Coordinator) :
  ((exists message, AddStatus (ActiveStatus message)
                    ∈ trace (_on_collect_unit_status self))
   <-> s3_ready self = Return true)
  /\ (AddStatus (BlockedStatus "[consistency] Missing S3 integration.")
      ∈ trace (_on_collect_unit_status self)
      <-> s3_ready self = Return false)
  /\ (forall e, outcome (_on_collect_unit_status self) = Raise e
                <-> s3_ready self = Raise e).
Proof.
  unfold _on_collect_unit_status.
  destruct (has_workers (cluster self)), (is_coherent self),
    (s3_ready self) as [[|]|e], (is_recommended self) as [[|]|]; simpl;
    (split; [|split]);
    try (intros e'; split; congruence);
    (split; [|first [discriminate|intros _; first [eexists; in_list|in_list]]]);
    try (intros [message Hin]);
    try (intros Hin);
    try done;
    repeat (apply elem_of_cons in Hin as [Hin|Hin]; [discriminate Hin|]);
    by apply elem_of_nil in Hin.
Qed.

End StatusHandler.

(** ** More on the reconciler *)

Section ReconcilerShape.
Context `{PyLib}.

Lemma update_cluster_success (self : Coordinator) (endpoints : gmap string json) :
  is_coherent self = true -> is_leader self = true ->
  loki_endpoints_by_unit self = Return endpoints ->
  update_cluster self =
  Eff ([NginxConfigurePebbleLayer; NginxExporterConfigurePebbleLayer]
       ++ (if tls_available self then [GrantPrivkey] else [])
       ++ [PublishData (bundle_of self endpoints)]) (Return tt).
Proof.
  intros Hcoh Hlead Hloki. unfold update_cluster, tls_kwargs, bundle_of.
  rewrite Hcoh, Hlead, Hloki. destruct (tls_available self); reflexivity.
Qed.

(** The four ways in which [update_cluster] ends. *)
Lemma update_cluster_cases (self : Coordinator) :
  update_cluster self =
    Eff [NginxConfigurePebbleLayer; NginxExporterConfigurePebbleLayer;
         LogError "skipped cluster update: incoherent deployment"] (Return tt)
  \/ update_cluster self =
     Eff [NginxConfigurePebbleLayer; NginxExporterConfigurePebbleLayer] (Return tt)
  \/ (exists e, update_cluster self =
        Eff [NginxConfigurePebbleLayer; NginxExporterConfigurePebbleLayer] (Raise e))
  \/ (exists endpoints,
        is_coherent self = true /\ is_leader self = true
        /\ loki_endpoints_by_unit self = Return endpoints
        /\ update_cluster self =
           Eff ([NginxConfigurePebbleLayer; NginxExporterConfigurePebbleLayer]
                ++ (if tls_available self then [GrantPrivkey] else [])
                ++ [PublishData (bundle_of self endpoints)]) (Return tt)).
Proof.
  destruct (is_coherent self) eqn:Hcoh.
  - destruct (is_leader self) eqn:Hlead.
    + destruct (loki_endpoints_by_unit self) as [endpoints|e] eqn:Hloki.
      * do 3 right. exists endpoints. repeat split; try done.
        by apply update_cluster_success.
      * do 2 right. left. exists e. by apply update_cluster_loki_raises.
    + right. left. by apply update_cluster_follower.
  - left. by apply update_cluster_incoherent.
Qed.

(** X5: a coherent leader whose Loki collection returns makes exactly one
    [publish_data] call, as its last action, with the worker configuration,
    the collected endpoints, the tracing receivers when a getter was
    supplied, and the TLS data exactly when TLS is available; the private
    key is granted just before, in that case only. *)
Theorem update_cluster_publishes_bundle (self : Coordinator)
    (endpoints : gmap string json) :
  is_coherent self = true -> is_leader self = true ->
  loki_endpoints_by_unit self = Return endpoints ->
  exists data,
    outcome (update_cluster self) = Return tt
    /\ last (trace (update_cluster self)) = Some (PublishData data)
    /\ List.filter is_publish (trace (update_cluster self)) = [PublishData data]
    /\ worker_config data = _workers_config_getter self
    /\ loki_endpoints data = endpoints
    /\ tracing_receivers data = _tracing_receivers_getter self
    /\ (is_Some (tls_data data) <-> tls_available self = true)
    /\ (GrantPrivkey ∈ trace (update_cluster self) <-> tls_available self = true).
Proof.
  intros Hcoh Hlead Hloki. exists (bundle_of self endpoints).
  rewrite (update_cluster_success self endpoints Hcoh Hlead Hloki).
  unfold bundle_of. destruct (tls_available self); simpl;
    (do 6 (split; [reflexivity|])); split; split.
  - done.
  - intros _. eauto.
  - done.
  - intros _. in_list.
  - intros [t Ht]. discriminate.
  - discriminate.
  - intros Hin.
    repeat (apply elem_of_cons in Hin as [Hin|Hin]; [discriminate Hin|]).
    by apply elem_of_nil in Hin.
  - discriminate.
Qed.

(** X6: whatever the state, [update_cluster] starts by configuring the
    Pebble layers of Nginx and of its exporter, makes at most one
    [publish_data] call, and makes none when it raises. *)
Theorem update_cluster_shape (self : Coordinator) :
  (exists rest, trace (update_cluster self) =
                NginxConfigurePebbleLayer :: NginxExporterConfigurePebbleLayer :: rest)
  /\ (length (List.filter is_publish (trace (update_cluster self))) <= 1)%nat
  /\ (forall e, outcome (update_cluster self) = Raise e ->
                List.filter is_publish (trace (update_cluster self)) = []).
Proof.
  destruct (update_cluster_cases self)
    as [->|[->|[[e ->]|(endpoints & _ & _ & _ & ->)]]]; simpl.
  - split; [eauto|]. split; [lia|done].
  - split; [eauto|]. split; [lia|done].
  - split; [eauto|]. split; [lia|done].
  - split; [eauto|]. destruct (tls_available self); simpl.
    + split; [lia|discriminate].
    + split; [lia|discriminate].
Qed.

(** X7: the certificates that [update_cluster] publishes are never missing:
    a published bundle with TLS data holds a CA certificate and a server
    certificate, and the secret id of the private key granted in the same
    run; a bundle without TLS data is published only when TLS is not
    available, and then no private key is granted. *)
Theorem published_tls_is_complete (self : Coordinator) (data : PublishedData) :
  PublishData data ∈ trace (update_cluster self) ->
  match tls_data data with
  | Some tls =>
      is_Some (tls_ca_cert tls) /\ is_Some (tls_server_cert tls)
      /\ privkey_secret_id tls = grant_privkey self
      /\ GrantPrivkey ∈ trace (update_cluster self)
  | None =>
      tls_available self = false /\ GrantPrivkey ∉ trace (update_cluster self)
  end.
Proof.
  intros Hin.
  destruct (update_cluster_cases self)
    as [Huc|[Huc|[[e Huc]|(endpoints & _ & _ & _ & Huc)]]];
    rewrite Huc in Hin |- *; simpl in Hin.
  1-3: repeat (apply elem_of_cons in Hin as [Hin|Hin]; [discriminate Hin|]);
       by apply elem_of_nil in Hin.
  unfold bundle_of in Hin. unfold tls_available in *.
  destruct (enabled (cert_handler self)); simpl in *;
    [destruct (server_cert (cert_handler self)) as [sc|] eqn:Hsc,
       (private_key (cert_handler self)) as [pk|] eqn:Hpk,
       (ca_cert (cert_handler self)) as [cc|] eqn:Hcc; simpl in *|];
    repeat (apply elem_of_cons in Hin as [Hin|Hin];
            [first [discriminate Hin | injection Hin as ->]|]);
    try (by apply elem_of_nil in Hin); simpl;
    repeat split; eauto; try in_list;
    intros Hg;
    repeat (apply elem_of_cons in Hg as [Hg|Hg]; [discriminate Hg|]);
    by apply elem_of_nil in Hg.
Qed.

Lemma update_cluster_no_tls_action (self : Coordinator)
    (server ca key : option string) :
  NginxConfigureTls server ca key ∉ trace (update_cluster self).
Proof.
  intros Hin.
  destruct (update_cluster_cases self)
    as [Huc|[Huc|[[e Huc]|(endpoints & _ & _ & _ & Huc)]]];
    rewrite Huc in Hin; simpl in Hin;
    try destruct (tls_available self); simpl in Hin;
    repeat (apply elem_of_cons in Hin as [Hin|Hin]; [discriminate Hin|]);
    by apply elem_of_nil in Hin.
Qed.

Lemma trace_bind (m k : eff unit) (a : action) :
  a ∈ trace (_ ← m; k) -> a ∈ trace m \/ a ∈ trace k.
Proof.
  unfold mbind, eff_bind. destruct (outcome m); simpl.
  - intros Hin. by apply elem_of_app in Hin.
  - by left.
Qed.

(** X8: no handler ever hands a missing certificate to the proxy: whenever
    a handler calls [nginx.configure_tls], the server certificate, the CA
    certificate and the private key are all there and TLS is available. *)
Theorem configure_tls_is_complete (self : Coordinator) (h : handler)
    (server ca key : option string) :
  NginxConfigureTls server ca key ∈ trace (handler_body h self) ->
  is_Some server /\ is_Some ca /\ is_Some key /\ tls_available self = true.
Proof.
  assert (NginxConfigureTls server ca key ∈ trace (refresh_nginx_tls self) ->
          is_Some server /\ is_Some ca /\ is_Some key
          /\ tls_available self = true) as Hrefresh.
  { unfold refresh_nginx_tls, tls_available.
    destruct (enabled (cert_handler self)); simpl;
      [destruct (server_cert (cert_handler self)) as [sc|],
         (private_key (cert_handler self)) as [pk|],
         (ca_cert (cert_handler self)) as [cc|]; simpl|];
      intros Hin;
      repeat (apply elem_of_cons in Hin as [Hin|Hin];
              [first [discriminate Hin | injection Hin as -> -> ->]|]);
      try (by apply elem_of_nil in Hin); eauto. }
  assert (NginxConfigureTls server ca key ∉ trace (_on_collect_unit_status self))
    as Hstatus.
  { intros Hin.
    destruct (collect_status_trace self _ Hin) as [s Hs]. discriminate. }
  destruct h; simpl; intros Hin;
    try (by destruct (update_cluster_no_tls_action self server ca key));
    try (by destruct Hstatus);
    apply trace_bind in Hin as [Hin|Hin]; auto;
    by destruct (update_cluster_no_tls_action self server ca key).
Qed.

End ReconcilerShape.

Lemma update_cluster_publishes_bundle_witness :
  exists data,
    outcome (update_cluster (secured [loki_unit "loki/0"])) = Return tt
    /\ last (trace (update_cluster (secured [loki_unit "loki/0"])))
       = Some (PublishData data)
    /\ List.filter is_publish (trace (update_cluster (secured [loki_unit "loki/0"])))
       = [PublishData data]
    /\ worker_config data = _workers_config_getter (secured [loki_unit "loki/0"])
    /\ loki_endpoints data = {[ "loki/0" := JString loki_push_url ]}
    /\ tracing_receivers data
       = _tracing_receivers_getter (secured [loki_unit "loki/0"])
    /\ (is_Some (tls_data data)
        <-> tls_available (secured [loki_unit "loki/0"]) = true)
    /\ (GrantPrivkey ∈ trace (update_cluster (secured [loki_unit "loki/0"]))
        <-> tls_available (secured [loki_unit "loki/0"]) = true).
Proof.
  apply (update_cluster_publishes_bundle (secured [loki_unit "loki/0"])
           {[ "loki/0" := JString loki_push_url ]});
    vm_compute; reflexivity.
Defined.

Lemma published_tls_is_complete_witness :
  match tls_data (bundle_of (secured []) ∅) with
  | Some tls =>
      is_Some (tls_ca_cert tls) /\ is_Some (tls_server_cert tls)
      /\ privkey_secret_id tls = grant_privkey (secured [])
      /\ GrantPrivkey ∈ trace (update_cluster (secured []))
  | None =>
      tls_available (secured []) = false
      /\ GrantPrivkey ∉ trace (update_cluster (secured []))
  end.
Proof.
  apply (published_tls_is_complete (secured []) (bundle_of (secured []) ∅)).
  vm_compute. in_list.
Defined.

Lemma configure_tls_is_complete_witness :
  is_Some (Some "server cert") /\ is_Some (Some "ca cert")
  /\ is_Some (Some "private key") /\ tls_available (secured []) = true.
Proof.
  apply (configure_tls_is_complete (secured []) OnCertHandlerChanged
           (Some "server cert") (Some "ca cert") (Some "private key")).
  vm_compute. in_list.
Defined.

(** ** Order of the logging units *)

Section LokiOrder.
Context `{PyLib}.

Lemma units_good_or_bad (us : list RelationUnit) :
  (forall u, u ∈ us -> has_endpoint u = true -> exists url, unit_url u = Return url)
  \/ (exists u e, u ∈ us /\ has_endpoint u = true /\ unit_url u = Raise e).
Proof.
  induction us as [|u us IH].
  - left. intros u Hin. by apply elem_of_nil in Hin.
  - destruct IH as [Hgood|(v & e & Hin & Hend & Hbad)].
    + destruct (has_endpoint u) eqn:Hu.
      * destruct (unit_url u) as [url|e] eqn:Hurl.
        -- left. intros v Hv Hvend.
           apply elem_of_cons in Hv as [->|Hv]; [eauto|by apply Hgood].
        -- right. exists u, e. split; [by left|done].
      * left. intros v Hv Hvend.
        apply elem_of_cons in Hv as [->|Hv]; [congruence|by apply Hgood].
    + right. exists v, e. split; [by right|done].
Qed.

Lemma same_name_same_unit (us : list RelationUnit) (u v : RelationUnit) :
  NoDup (unit_name <$> us) -> u ∈ us -> v ∈ us -> unit_name u = unit_name v ->
  u = v.
Proof.
  induction us as [|w us IH]; intros Hnodup Hu Hv Hname.
  - by apply elem_of_nil in Hu.
  - rewrite fmap_cons in Hnodup. apply NoDup_cons in Hnodup as [Hfresh Hnodup].
    apply elem_of_cons in Hu as [->|Hu], Hv as [->|Hv]; try done.
    + destruct Hfresh. rewrite Hname. by apply list_elem_of_fmap_2.
    + destruct Hfresh. rewrite <- Hname. by apply list_elem_of_fmap_2.
    + by apply IH.
Qed.

(** With distinct unit names, the collected dictionary holds exactly the
    url of each unit that has an endpoint. *)
Lemma loki_units_loop_distinct (us : list RelationUnit) (endpoints : gmap string json) :
  NoDup (unit_name <$> us) ->
  loki_units_loop ∅ us = Return endpoints ->
  (forall u, u ∈ us -> has_endpoint u = true -> exists url, unit_url u = Return url) ->
  forall name url,
    endpoints !! name = Some url
    <-> exists u, u ∈ us /\ has_endpoint u = true
                  /\ unit_name u = name /\ unit_url u = Return url.
Proof.
  intros Hnodup Hrun Hgood name url.
  destruct (loki_units_loop_returns us ∅ Hgood) as (eps & Hrun' & _ & Hall & Hfrom).
  assert (eps = endpoints) as -> by congruence.
  split.
  - intros Hlook. destruct (Hfrom name url Hlook) as [Hempty|]; [|done].
    by rewrite lookup_empty in Hempty.
  - intros (u & Hu & Hend & <- & Hurl).
    destruct (Hall u Hu Hend) as [url' Hlook]. rewrite Hlook. f_equal.
    destruct (Hfrom _ _ Hlook) as [Hempty|(v & Hv & _ & Hname & Hvurl)].
    + by rewrite lookup_empty in Hempty.
    + assert (v = u) as -> by (by apply (same_name_same_unit us)).
      congruence.
Qed.

(** X9: the units of a relation are a set, and their order does not matter:
    when the unit names are distinct, visiting the same units in another
    order gives the same dictionary of endpoints, or raises as well. *)
Theorem loki_endpoints_order_irrelevant (self : Coordinator)
    (relations : list (list RelationUnit)) :
  concat relations ≡ₚ concat (logging_relations self) ->
  NoDup (unit_name <$> concat (logging_relations self)) ->
  match loki_endpoints_by_unit self,
        loki_endpoints_by_unit (with_logging self relations) with
  | Return endpoints, Return endpoints' => endpoints = endpoints'
  | Raise _, Raise _ => True
  | _, _ => False
  end.
Proof.
  intros Hperm Hnodup. unfold loki_endpoints_by_unit. simpl.
  rewrite !loki_relations_loop_concat.
  set (us := concat (logging_relations self)) in *.
  set (vs := concat relations) in *.
  assert (NoDup (unit_name <$> vs)) as Hnodup' by (by rewrite Hperm).
  destruct (units_good_or_bad us) as [Hgood|Hbad].
  - assert (forall u, u ∈ vs -> has_endpoint u = true ->
                      exists url, unit_url u = Return url) as Hgood'.
    { intros u Hu. apply Hgood. by rewrite <- Hperm. }
    destruct (loki_units_loop_returns us ∅ Hgood) as (eps & Hrun & _).
    destruct (loki_units_loop_returns vs ∅ Hgood') as (eps' & Hrun' & _).
    rewrite Hrun, Hrun'. apply map_eq. intros name.
    apply option_eq. intros url.
    rewrite (loki_units_loop_distinct us eps Hnodup Hrun Hgood name url).
    rewrite (loki_units_loop_distinct vs eps' Hnodup' Hrun' Hgood' name url).
    split; intros (u & Hu & Hrest); exists u; split; try done.
    + by rewrite Hperm.
    + by rewrite <- Hperm.
  - destruct (loki_units_loop_raises us ∅ Hbad) as [e ->].
    destruct (loki_units_loop_raises vs ∅) as [e' ->]; [|done].
    destruct Hbad as (u & e0 & Hu & Hrest). exists u, e0.
    split; [by rewrite Hperm|done].
Qed.

End LokiOrder.

Lemma loki_endpoints_order_irrelevant_witness :
  match loki_endpoints_by_unit (with_loki [loki_unit "loki/0"; loki_unit "loki/1"]),
        loki_endpoints_by_unit
          (with_logging (with_loki [loki_unit "loki/0"; loki_unit "loki/1"])
                        [[loki_unit "loki/1"]; [loki_unit "loki/0"]]) with
  | Return endpoints, Return endpoints' => endpoints = endpoints'
  | Raise _, Raise _ => True
  | _, _ => False
  end.
Proof.
  apply (loki_endpoints_order_irrelevant
           (with_loki [loki_unit "loki/0"; loki_unit "loki/1"])
           [[loki_unit "loki/1"]; [loki_unit "loki/0"]]).
  - simpl. apply Permutation_swap.
  - simpl. apply NoDup_cons. split.
    + intros Hin. apply list_elem_of_singleton in Hin. discriminate.
    + apply NoDup_singleton.
Defined.

(** ** More on the role configuration and the coherence predicates *)

(** X10: validation is monotone in the roles: a configuration that
    validates still validates when roles are added, in any order and with
    repetitions. *)
Theorem validate_roles_config_monotone (rc : ClusterRolesConfig) (rs : list string) :
  validate_roles_config rc = Return tt ->
  (forall role, role ∈ roles rc -> role ∈ rs) ->
  validate_roles_config (with_roles rc rs) = Return tt.
Proof.
  intros Hvalid Hmore.
  destruct (validate_roles_config_cases rc) as [[_ Hdef]|[Hraise _]];
    [|congruence].
  destruct (validate_roles_config_cases (with_roles rc rs))
    as [[Hok _]|[_ Hundef]]; [done|].
  destruct Hundef. destruct Hdef as (Hnames & Hmembers & Hminimal & Hrec).
  repeat split; simpl.
  - intros name members Hin. by eapply Hmore, Hnames.
  - intros name members Hin role Hrole. by eapply Hmore, Hmembers.
  - intros role Hin. by apply Hmore, Hminimal.
  - intros role min_n Hin. by eapply Hmore, Hrec.
Qed.

Lemma validate_roles_config_monotone_witness :
  validate_roles_config
    (with_roles loki_roles ["ruler"; "backend"; "write"; "read"; "all"; "all"])
  = Return tt.
Proof.
  apply (validate_roles_config_monotone loki_roles).
  - vm_compute. reflexivity.
  - intros role Hin. simpl in Hin. each_member Hin.
Defined.

(** X11: only the keys of the gathered roles count, and gathering more of
    them never hurts: when every role gathered before is still gathered, a
    coherent deployment stays coherent and no role becomes missing. *)
Theorem coherence_monotone (self : Coordinator) (cl : ClusterProvider) :
  _is_coherent self = None ->
  dom (gather_roles (cluster self)) ⊆ dom (gather_roles cl) ->
  (is_coherent self = true -> is_coherent (with_cluster self cl) = true)
  /\ missing_roles (with_cluster self cl) ⊆ missing_roles self.
Proof.
  intros Hnone Hdom. split.
  - rewrite !is_coherent_default by done. simpl. intros Hsub role Hin.
    by apply Hdom, Hsub.
  - unfold missing_roles. simpl. intros role Hin.
    apply elem_of_difference in Hin as [Hmin Hout].
    apply elem_of_difference. split; [done|]. intros Hgot. by apply Hout, Hdom.
Qed.

Lemma coherence_monotone_witness :
  (is_coherent (plain_coordinator loki_roles no_backend true ∅ []) = true ->
   is_coherent (with_cluster (plain_coordinator loki_roles no_backend true ∅ [])
                             three_workers) = true)
  /\ missing_roles (with_cluster (plain_coordinator loki_roles no_backend true ∅ [])
                                 three_workers)
     ⊆ missing_roles (plain_coordinator loki_roles no_backend true ∅ []).
Proof.
  apply (coherence_monotone (plain_coordinator loki_roles no_backend true ∅ [])
                            three_workers).
  - reflexivity.
  - apply (bool_decide_unpack _). vm_compute. exact I.
Defined.

Lemma roles_get_positive (rls : gmap string Z) (role : string) :
  0 < roles_get rls role -> role ∈ dom rls.
Proof.
  unfold roles_get. intros Hpos. apply elem_of_dom.
  destruct (rls !! role); [eauto|]. simpl in Hpos. lia.
Qed.

(** X12: with the default checkers, a deployment that meets a recommended
    deployment asking for at least one worker of every minimal role is
    coherent. *)
Theorem recommended_is_coherent (self : Coordinator) :
  _is_coherent self = None -> _is_recommended self = None ->
  (forall role, role ∈ minimal_deployment (roles_config self) ->
     exists min_n, (role, min_n) ∈ recommended_deployment (roles_config self)
                   /\ 0 < min_n) ->
  is_recommended self = Some true ->
  is_coherent self = true.
Proof.
  intros Hcoh Hrec Hcover Hmet. apply is_coherent_default; [done|].
  unfold is_recommended in Hmet. rewrite Hrec in Hmet. cbv zeta in Hmet.
  destruct (recommended_deployment (roles_config self)) as [|item rest] eqn:Hrd;
    [discriminate|].
  assert (recommended_loop (gather_roles (cluster self)) (item :: rest) = true)
    as Hloop by congruence.
  pose proof (proj1 (recommended_loop_true _ _) Hloop) as Hall.
  intros role Hin. apply elem_of_list_to_set in Hin.
  destruct (Hcover role Hin) as (min_n & Hitem & Hpos).
  apply roles_get_positive. specialize (Hall _ _ Hitem). lia.
Qed.

Lemma recommended_is_coherent_witness :
  is_recommended (plain_coordinator loki_roles nine_workers true ∅ []) = Some true
  /\ is_coherent (plain_coordinator loki_roles nine_workers true ∅ []) = true.
Proof.
  split; [vm_compute; reflexivity|].
  apply (recommended_is_coherent
           (plain_coordinator loki_roles nine_workers true ∅ [])).
  - reflexivity.
  - reflexivity.
  - intros role Hin. exists 3. simpl in Hin |- *.
    split; [|lia]. each_member Hin.
  - vm_compute. reflexivity.
Defined.

(** X13: with the default checker, whether a recommended deployment is
    defined does not depend on the cluster, and a recommended deployment
    that is met stays met when no role count decreases. *)
Theorem is_recommended_monotone (self : Coordinator) (cl : ClusterProvider) :
  _is_recommended self = None ->
  (is_recommended self = None <-> is_recommended (with_cluster self cl) = None)
  /\ ((forall role, roles_get (gather_roles (cluster self)) role
                    <= roles_get (gather_roles cl) role) ->
      is_recommended self = Some true ->
      is_recommended (with_cluster self cl) = Some true).
Proof.
  intros Hnone. unfold is_recommended.
  change (_is_recommended (with_cluster self cl)) with (_is_recommended self).
  change (roles_config (with_cluster self cl)) with (roles_config self).
  change (cluster (with_cluster self cl)) with cl.
  rewrite Hnone. cbv zeta.
  destruct (recommended_deployment (roles_config self)) as [|item rest] eqn:Hrd.
  - split; [done|]. discriminate.
  - split; [split; discriminate|].
    intros Hcounts Hmet. f_equal.
    assert (recommended_loop (gather_roles (cluster self)) (item :: rest) = true)
      as Hloop by congruence.
    apply recommended_loop_true. intros role min_n Hin.
    pose proof (proj1 (recommended_loop_true _ _) Hloop role min_n Hin).
    specialize (Hcounts role). lia.
Qed.

Lemma is_recommended_monotone_witness :
  (is_recommended (plain_coordinator plain_roles nine_workers true ∅ []) = None
   <-> is_recommended (with_cluster (plain_coordinator plain_roles nine_workers true ∅ [])
                                    more_workers) = None)
  /\ is_recommended (with_cluster (plain_coordinator loki_roles nine_workers true ∅ [])
                                  more_workers) = Some true.
Proof.
  split.
  - apply (proj1 (is_recommended_monotone
                    (plain_coordinator plain_roles nine_workers true ∅ [])
                    more_workers eq_refl)).
  - apply (proj2 (is_recommended_monotone
                    (plain_coordinator loki_roles nine_workers true ∅ [])
                    more_workers eq_refl)).
    + intros role. unfold roles_get. simpl.
      destruct (decide (role = "read")) as [->|Hread]; [vm_compute; discriminate|].
      destruct (decide (role = "write")) as [->|Hwrite]; [vm_compute; discriminate|].
      destruct (decide (role = "backend")) as [->|Hbackend];
        [vm_compute; discriminate|].
      rewrite !lookup_insert_ne, !lookup_singleton_ne by done. reflexivity.
    + vm_compute. reflexivity.
Defined.

(** ** More on object storage *)

Section ObjectStorageFields.
Context `{PyLib}.

(** X14: a configuration returned by [_s3_config] carries the access key,
    the secret key and the bucket of the relation unchanged, the region of
    the relation or the empty string, an [insecure] flag read off the raw
    endpoint, and the stripped endpoint. *)
Theorem s3_config_fields (self : Coordinator) (cfg : S3Config) :
  _s3_config self = Return cfg ->
  let d := get_s3_connection_info self in
  d !! "access-key" = Some (access_key_id cfg)
  /\ d !! "secret-key" = Some (secret_access_key cfg)
  /\ d !! "bucket" = Some (bucket_name cfg)
  /\ region cfg = default "" (d !! "region")
  /\ exists raw, d !! "endpoint" = Some raw
                 /\ insecure cfg = negb (startswith raw "https://")
                 /\ normalise_endpoint raw = Return (endpoint cfg).
Proof.
  intros Hcfg d.
  destruct (decide (s3_fields_present d)) as [Hp|Habs].
  - pose proof Hp as ([b Hb] & [raw Hraw] & [a Ha] & [k Hk]).
    rewrite (s3_config_present self raw Hp Hraw) in Hcfg. fold d in Hcfg.
    destruct (normalise_endpoint raw) as [stripped|e] eqn:Hstrip; simpl in Hcfg;
      [|discriminate].
    injection Hcfg as <-. simpl. rewrite Hb, Ha, Hk. simpl.
    repeat split; try done. by exists raw.
  - rewrite (s3_config_absent self Habs) in Hcfg. discriminate.
Qed.

End ObjectStorageFields.

Lemma s3_config_fields_witness :
  get_s3_connection_info (with_endpoint "https://s3.example.com") !! "access-key"
  = Some "my-access-key"
  /\ get_s3_connection_info (with_endpoint "https://s3.example.com") !! "secret-key"
     = Some "my-secret-key"
  /\ get_s3_connection_info (with_endpoint "https://s3.example.com") !! "bucket"
     = Some "foo-bucket"
  /\ "" = default "" (get_s3_connection_info (with_endpoint "https://s3.example.com")
                      !! "region")
  /\ exists raw,
       get_s3_connection_info (with_endpoint "https://s3.example.com") !! "endpoint"
       = Some raw
       /\ false = negb (startswith raw "https://")
       /\ normalise_endpoint raw = Return "s3.example.com".
Proof.
  apply (s3_config_fields
           (with_endpoint "https://s3.example.com")
           {| insecure := false; endpoint := "s3.example.com"; region := "";
              access_key_id := "my-access-key";
              secret_access_key := "my-secret-key";
              bucket_name := "foo-bucket" |}).
  vm_compute. reflexivity.
Defined.

(** ** Scrape jobs *)

Lemma workers_scrape_loop_eq (m : Monitoring) (scrape_jobs : list ScrapeJob)
    (workers : list WorkerTopology) :
  workers_scrape_loop m scrape_jobs workers
  = (scrape_jobs ++ map (worker_job m) workers)%list.
Proof.
  revert scrape_jobs. induction workers as [|worker rest IH]; intros scrape_jobs; simpl.
  - by rewrite app_nil_r.
  - rewrite IH. by rewrite <- app_assoc.
Qed.

(** X15: the scrape jobs are never empty: there is one job per gathered
    worker, in the order of the topology, targeting the address of the worker
    at the metrics port and relabelled with its unit, application and charm,
    and the job of Nginx comes last, targeting the host name at the Nginx
    port. *)
Theorem scrape_jobs_cover (m : Monitoring) :
  length (_scrape_jobs m) = S (length (gather_topology m))
  /\ (forall i worker, gather_topology m !! i = Some worker ->
        exists job labels,
          _scrape_jobs m !! i = Some job
          /\ static_configs job
             = [[host_port (worker_address worker) (_worker_metrics_port m)]]
          /\ relabel_configs job = Some labels
          /\ {| target_label := "juju_unit"; replacement := worker_unit worker |}
             ∈ labels
          /\ {| target_label := "juju_application";
                replacement := worker_application worker |} ∈ labels
          /\ {| target_label := "juju_charm";
                replacement := worker_charm_name worker |} ∈ labels)
  /\ last (_scrape_jobs m)
     = Some {| static_configs := [[host_port (hostname m) (nginx_port m)]];
               relabel_configs := None |}.
Proof.
  unfold _scrape_jobs, _workers_scrape_jobs, _nginx_scrape_jobs.
  rewrite workers_scrape_loop_eq. simpl. split; [|split].
  - rewrite length_app, length_map. simpl. lia.
  - intros i worker Hi. eexists (worker_job m worker), _.
    split; [|split; [reflexivity|split; [reflexivity|]]].
    + apply lookup_app_l_Some. change (map (worker_job m) (gather_topology m))
        with (worker_job m <$> gather_topology m).
      by rewrite list_lookup_fmap, Hi.
    + repeat split; in_list.
  - apply last_snoc.
Qed.

Lemma scrape_jobs_cover_witness :
  exists job labels,
    _scrape_jobs sample_monitoring !! 1%nat = Some job
    /\ static_configs job = [[host_port "read-1" 123]]
    /\ relabel_configs job = Some labels
    /\ {| target_label := "juju_unit"; replacement := "read/1" |} ∈ labels
    /\ {| target_label := "juju_application"; replacement := "read" |} ∈ labels
    /\ {| target_label := "juju_charm"; replacement := "worker-k8s" |} ∈ labels.
Proof.
  apply (proj1 (proj2 (scrape_jobs_cover sample_monitoring)) 1%nat (read_worker "1")).
  reflexivity.
Defined.

(** ** Peer addresses *)

Lemma filter_none_elem (addresses : list (option string)) (a : string) :
  a ∈ filter_none addresses <-> a <> "" /\ Some a ∈ addresses.
Proof.
  induction addresses as [|[s|] rest IH]; simpl.
  - split; [intros Hin; by apply elem_of_nil in Hin|].
    intros [_ Hin]. by apply elem_of_nil in Hin.
  - destruct (String.eqb_spec s "") as [->|Hne]; simpl.
    + rewrite IH. split.
      * intros [Hne Hin]. split; [done|by right].
      * intros [Hne Hin]. split; [done|].
        apply elem_of_cons in Hin as [[= ->]|Hin]; done.
    + rewrite elem_of_cons, IH. split.
      * intros [->|[Hna Hin]]; (split; [done|]); [by left|by right].
      * intros [Hna Hin]. apply elem_of_cons in Hin as [[= ->]|Hin]; auto.
  - rewrite IH. split.
    + intros [Hne Hin]. split; [done|by right].
    + intros [Hne Hin]. split; [done|].
      apply elem_of_cons in Hin as [|Hin]; done.
Qed.

(** X16: the peer addresses hold no empty address: they are the non-empty
    ["local-ip"] values of the peer units and the non-empty bind address of
    the unit itself, which comes last when it is known. *)
Theorem peer_addresses_rule (p : Peers) :
  (forall a, a ∈ peer_addresses p
     <-> a <> ""
         /\ ((exists ips, peers_relation p = Some ips /\ Some a ∈ ips)
             \/ _local_ip p = Some a))
  /\ (forall own, _local_ip p = Some own -> own <> "" ->
        last (peer_addresses p) = Some own).
Proof.
  unfold peer_addresses.
  set (addresses := match peers_relation p with
                    | Some (unit_ip :: others) => filter_none (unit_ip :: others)
                    | _ => []
                    end).
  assert (forall a, a ∈ addresses
            <-> a <> "" /\ exists ips, peers_relation p = Some ips /\ Some a ∈ ips)
    as Haddr.
  { intros a. subst addresses. destruct (peers_relation p) as [[|ip ips]|].
    - split; [intros Hin; by apply elem_of_nil in Hin|].
      intros (_ & ips & [= <-] & Hin). by apply elem_of_nil in Hin.
    - rewrite filter_none_elem. split.
      + intros [Hne Hin]. eauto.
      + intros (Hne & ips' & [= <-] & Hin). done.
    - split; [intros Hin; by apply elem_of_nil in Hin|].
      intros (_ & ips & Hrel & _). discriminate. }
  destruct (_local_ip p) as [own|]; simpl.
  - destruct (String.eqb_spec own "") as [->|Hne]; simpl.
    + split.
      * intros a. rewrite Haddr. split; [intros [Hne Hex]; auto|].
        intros [Hne [Hex|Hown]]; [by split|].
        injection Hown as <-. done.
      * intros own' [= <-] Hne. done.
    + split.
      * intros a. rewrite elem_of_app, Haddr, list_elem_of_singleton. split.
        -- intros [[Hna Hex]| ->]; auto.
        -- intros [Hna [Hex|Hown]]; [by left|].
           injection Hown as <-. by right.
      * intros own' [= <-] _. apply last_snoc.
  - split; [|discriminate].
    intros a. rewrite Haddr. split; [intros [Hne Hex]; auto|].
    intros [Hne [Hex|Hown]]; [by split|discriminate].
Qed.

Lemma peer_addresses_rule_witness :
  peer_addresses sample_peers = ["10.0.0.2"; "10.0.0.3"; "10.0.0.1"]
  /\ last (peer_addresses sample_peers) = Some "10.0.0.1".
Proof.
  split; [reflexivity|].
  apply (proj2 (peer_addresses_rule sample_peers) "10.0.0.1").
  - reflexivity.
  - discriminate.
Defined.

(** ** The internal url *)

Section InternalUrl.
Context `{PyLib}.

(** X17: the internal url of the unit starts with ["https://"] exactly when
    TLS is available, and so agrees with what is published: a bundle is
    published with TLS data exactly when the internal url is an https one. *)
Theorem internal_url_follows_tls (self : Coordinator) (host : string) :
  startswith (_internal_url self host) "https://" = tls_available self
  /\ forall data, PublishData data ∈ trace (update_cluster self) ->
       (is_Some (tls_data data)
        <-> startswith (_internal_url self host) "https://" = true).
Proof.
  assert (startswith (_internal_url self host) "https://" = tls_available self)
    as Hurl.
  { unfold _internal_url, startswith. destruct (tls_available self); simpl.
    - by destruct host.
    - reflexivity. }
  split; [done|]. rewrite Hurl. intros data Hin.
  destruct (update_cluster_cases self)
    as [Huc|[Huc|[[e Huc]|(endpoints & _ & _ & _ & Huc)]]];
    rewrite Huc in Hin; simpl in Hin.
  1-3: repeat (apply elem_of_cons in Hin as [Hin|Hin]; [discriminate Hin|]);
       by apply elem_of_nil in Hin.
  unfold bundle_of in Hin. destruct (tls_available self); simpl in Hin;
    repeat (apply elem_of_cons in Hin as [Hin|Hin];
            [first [discriminate Hin | injection Hin as ->]|]);
    try (by apply elem_of_nil in Hin); simpl.
  - split; eauto.
  - split; [intros [t Ht]; discriminate|discriminate].
Qed.

End InternalUrl.

(** ** Rendered alert rules *)

Lemma string_length_app (a b : string) :
  String.length (String.append a b) = (String.length a + String.length b)%nat.
Proof. induction a as [|c a IH]; simpl; [reflexivity|by rewrite IH]. Qed.

Lemma string_app_inv_tail (a b t : string) :
  String.append a t = String.append b t -> a = b.
Proof.
  revert b. induction a as [|c a IH]; intros [|c' b] Heq; simpl in Heq.
  - reflexivity.
  - apply (f_equal String.length) in Heq.
    rewrite !string_length_app in Heq. simpl in Heq. lia.
  - apply (f_equal String.length) in Heq.
    rewrite !string_length_app in Heq. simpl in Heq. lia.
  - injection Heq as -> Heq. f_equal. by apply IH.
Qed.

Lemma has_slash_app (a b : string) :
  has_slash (String.append a b) = has_slash a || has_slash b.
Proof.
  induction a as [|c a IH]; simpl; [reflexivity|].
  by rewrite IH, orb_assoc.
Qed.

(** The file name of a worker tells its application, and the other way. *)
Lemma rendered_file_name_inj (w w' : WorkerTopology) :
  rendered_file_name w = rendered_file_name w'
  <-> worker_application w = worker_application w'.
Proof.
  unfold rendered_file_name. split; [|by intros ->].
  intros Heq. apply (inj (String.append _)) in Heq.
  apply (inj (String.append _)) in Heq.
  by apply string_app_inv_tail in Heq.
Qed.

(** The file of an application whose name holds no slash is one of those
    that the removal looks for. *)
Lemma rendered_file_name_is_rendered (w : WorkerTopology) :
  has_slash (worker_application w) = false ->
  is_rendered (rendered_file_name w) = true.
Proof.
  intros Hslash. unfold is_rendered, rendered_file_name. simpl.
  rewrite !has_slash_app, Hslash. reflexivity.
Qed.

Section RenderedRules.
Variable contents : TopologyDict -> string.
Variable m : Monitoring.

(** What the loop leaves at a path: the rules of the first worker of the
    application named by the path, if its application was not seen before
    the loop, and otherwise what was there. *)
Lemma render_workers_loop_spec (workers : list WorkerTopology) :
  forall (apps : gset string) (files : gmap string string) (path text : string),
    render_workers_loop contents m apps files workers !! path = Some text
    <-> (exists i worker,
           first_of_application workers i worker
           /\ (worker_application worker ∉ apps)
           /\ path = rendered_file_name worker
           /\ text = contents (topology_dict m worker))
        \/ (files !! path = Some text
            /\ forall worker, worker ∈ workers ->
                 worker_application worker ∉ apps ->
                 rendered_file_name worker <> path).
Proof.
  induction workers as [|w0 rest IH]; intros apps files path text; simpl.
  - split.
    + intros Hlook. right. split; [done|].
      intros worker Hin. by apply elem_of_nil in Hin.
    + intros [(i & worker & [Hi _] & _)|[Hlook _]]; [|done].
      by rewrite lookup_nil in Hi.
  - destruct (bool_decide (worker_application w0 ∈ apps)) eqn:Hseen.
    + apply bool_decide_eq_true in Hseen. rewrite IH. split.
      * intros [(i & worker & [Hi Hfirst] & Hnew & Hpath & Htext)|[Hlook Hnone]].
        -- left. exists (S i), worker. split; [|done]. split; [done|].
           intros [|j] other Hlt Hj; simpl in Hj.
           ++ injection Hj as <-. intros Heq. apply Hnew. by rewrite <- Heq.
           ++ apply (Hfirst j); [lia|done].
        -- right. split; [done|]. intros worker Hin Hnew.
           apply elem_of_cons in Hin as [->|Hin]; [done|by apply Hnone].
      * intros [(i & worker & [Hi Hfirst] & Hnew & Hpath & Htext)|[Hlook Hnone]].
        -- destruct i as [|i]; simpl in Hi.
           ++ injection Hi as <-. done.
           ++ left. exists i, worker. split; [|done]. split; [done|].
              intros j other Hlt Hj. apply (Hfirst (S j)); [lia|done].
        -- right. split; [done|]. intros worker Hin.
           apply Hnone. by right.
    + apply bool_decide_eq_false in Hseen. rewrite IH. split.
      * intros [(i & worker & [Hi Hfirst] & Hnew & Hpath & Htext)|[Hlook Hnone]].
        -- left. exists (S i), worker.
           apply not_elem_of_union in Hnew as [Hne Hnew].
           apply not_elem_of_singleton in Hne.
           split; [|done]. split; [done|].
           intros [|j] other Hlt Hj; simpl in Hj.
           ++ injection Hj as <-. done.
           ++ apply (Hfirst j); [lia|done].
        -- destruct (decide (rendered_file_name w0 = path)) as [<-|Hother].
           ++ rewrite lookup_insert_eq in Hlook. injection Hlook as <-.
              left. exists 0%nat, w0. split; [|done]. split; [done|].
              intros j other Hlt. lia.
           ++ rewrite lookup_insert_ne in Hlook by done.
              right. split; [done|]. intros worker Hin Hnew.
              apply elem_of_cons in Hin as [->|Hin]; [done|].
              destruct (decide (worker_application worker = worker_application w0))
                as [Hsame|Hdiff].
              ** apply rendered_file_name_inj in Hsame. congruence.
              ** apply Hnone; [done|].
                 apply not_elem_of_union. split; [|done].
                 by apply not_elem_of_singleton.
      * intros [(i & worker & [Hi Hfirst] & Hnew & Hpath & Htext)|[Hlook Hnone]].
        -- destruct i as [|i]; simpl in Hi.
           ++ injection Hi as <-. right. subst path text.
              split; [by rewrite lookup_insert_eq|].
              intros worker Hin Hfresh Heq.
              apply rendered_file_name_inj in Heq.
              apply not_elem_of_union in Hfresh as [Hne _].
              by apply not_elem_of_singleton in Hne.
           ++ left. exists i, worker. split; [|split; [|done]].
              ** split; [done|]. intros j other Hlt Hj.
                 apply (Hfirst (S j)); [lia|done].
              ** apply not_elem_of_union. split; [|done].
                 apply not_elem_of_singleton. intros Heq.
                 by apply (Hfirst 0%nat w0); [lia| |].
        -- right. split.
           ++ rewrite lookup_insert_ne; [done|]. apply Hnone; [by left|done].
           ++ intros worker Hin Hfresh. apply Hnone; [by right|].
              by apply not_elem_of_union in Hfresh as [_ Hfresh].
Qed.

(** What a rendering leaves at a path, for application names without a
    slash. *)
Lemma render_workers_alert_rules_lookup (files : gmap string string) :
  (forall worker, worker ∈ gather_topology m ->
                  has_slash (worker_application worker) = false) ->
  (forall path, is_rendered path = false ->
     _render_workers_alert_rules contents m files !! path = files !! path)
  /\ (forall path text, is_rendered path = true ->
        (_render_workers_alert_rules contents m files !! path = Some text
         <-> exists i worker,
               first_of_application (gather_topology m) i worker
               /\ path = rendered_file_name worker
               /\ text = contents (topology_dict m worker))).
Proof.
  intros Hnames. unfold _render_workers_alert_rules, _remove_rendered_alert_rules.
  split.
  - intros path Hplain. apply option_eq. intros text.
    rewrite render_workers_loop_spec, map_lookup_filter_Some. simpl. split.
    + intros [(i & worker & [Hi _] & _ & -> & _)|[[Hlook _] _]]; [|done].
      rewrite rendered_file_name_is_rendered in Hplain; [discriminate|].
      apply Hnames. by eapply list_elem_of_lookup_2.
    + intros Hlook. right. split; [done|]. intros worker Hin _ <-.
      rewrite rendered_file_name_is_rendered in Hplain; [discriminate|].
      by apply Hnames.
  - intros path text Hrendered.
    rewrite render_workers_loop_spec, map_lookup_filter_Some. simpl. split.
    + intros [(i & worker & Hfirst & _ & Hpath & Htext)|[[_ Hplain] _]].
      * by exists i, worker.
      * congruence.
    + intros (i & worker & Hfirst & Hpath & Htext). left.
      exists i, worker. repeat split; try done; apply Hfirst.
Qed.

(** X18: rendering the worker alert rules leaves exactly one rendered file
    per application of the topology, holding the rules of the first worker
    of that application; every other rendered file is removed, and the files
    that are not rendered ones are left as they were; rendering once more
    changes nothing. The application names hold no slash, as the names of
    Juju applications do. *)
Theorem render_workers_alert_rules_rule (files : gmap string string) :
  (forall worker, worker ∈ gather_topology m ->
                  has_slash (worker_application worker) = false) ->
  (forall path, is_rendered path = false ->
     _render_workers_alert_rules contents m files !! path = files !! path)
  /\ (forall path text, is_rendered path = true ->
        (_render_workers_alert_rules contents m files !! path = Some text
         <-> exists i worker,
               first_of_application (gather_topology m) i worker
               /\ path = rendered_file_name worker
               /\ text = contents (topology_dict m worker)))
  /\ _render_workers_alert_rules contents m
       (_render_workers_alert_rules contents m files)
     = _render_workers_alert_rules contents m files.
Proof.
  intros Hnames.
  destruct (render_workers_alert_rules_lookup files Hnames) as [Hplain Hrendered].
  split; [done|]. split; [done|].
  destruct (render_workers_alert_rules_lookup
              (_render_workers_alert_rules contents m files) Hnames)
    as [Hplain' Hrendered'].
  apply map_eq. intros path. destruct (is_rendered path) eqn:Hpath.
  - apply option_eq. intros text.
    by rewrite (Hrendered' path text Hpath), (Hrendered path text Hpath).
  - by apply Hplain'.
Qed.

End RenderedRules.

Lemma render_workers_alert_rules_rule_witness :
  _render_workers_alert_rules sample_contents sample_monitoring sample_files
  = {[ rendered_file_name (read_worker "0") := "rules for read/0";
       rendered_file_name write_worker := "rules for write/0";
       nginx_rules_path := "nginx rules" ]}
  /\ _render_workers_alert_rules sample_contents sample_monitoring sample_files
       !! nginx_rules_path = sample_files !! nginx_rules_path.
Proof.
  split; [vm_compute; reflexivity|].
  assert (forall worker, worker ∈ gather_topology sample_monitoring ->
                         has_slash (worker_application worker) = false) as Hnames.
  { intros worker Hin. simpl in Hin.
    repeat (apply elem_of_cons in Hin as [->|Hin]; [reflexivity|]).
    by apply elem_of_nil in Hin. }
  apply (proj1 (render_workers_alert_rules_rule sample_contents sample_monitoring
                  sample_files Hnames)).
  vm_compute. reflexivity.
Defined.

(** ** Units of the same name *)

Section LokiLastWins.
Context `{PyLib}.

(** Units of other names leave an entry as it is. *)
Lemma loki_units_loop_other_names (us : list RelationUnit) (name : string) :
  forall endpoints endpoints' : gmap string json,
  loki_units_loop endpoints us = Return endpoints' ->
  (forall v, v ∈ us -> has_endpoint v = true -> unit_name v <> name) ->
  endpoints' !! name = endpoints !! name.
Proof.
  induction us as [|u us IH]; intros endpoints endpoints' Hrun Hother;
    simpl in Hrun.
  - by injection Hrun as <-.
  - rewrite loki_unit_step_eq in Hrun. destruct (has_endpoint u) eqn:Hu.
    + destruct (unit_url u) as [url|e]; simpl in Hrun; [|discriminate].
      rewrite (IH _ _ Hrun); [|intros v Hv; apply Hother; by right].
      apply lookup_insert_ne, Hother; [by left|done].
    + simpl in Hrun. apply (IH _ _ Hrun). intros v Hv. apply Hother. by right.
Qed.

(** X19: when two units have the same name, the later one wins: if the
    collection returns, the entry of a name is the url of the last unit of
    that name that has an endpoint. *)
Theorem loki_endpoints_last_wins (self : Coordinator)
    (before after : list RelationUnit) (u : RelationUnit)
    (url : json) (endpoints : gmap string json) :
  concat (logging_relations self) = (before ++ u :: after)%list ->
  has_endpoint u = true -> unit_url u = Return url ->
  (forall v, v ∈ after -> has_endpoint v = true -> unit_name v <> unit_name u) ->
  loki_endpoints_by_unit self = Return endpoints ->
  endpoints !! unit_name u = Some url.
Proof.
  intros Hunits Hu Hurl Hlast Hrun. unfold loki_endpoints_by_unit in Hrun.
  rewrite loki_relations_loop_concat, Hunits, loki_units_loop_app in Hrun.
  destruct (loki_units_loop ∅ before) as [eps|e]; simpl in Hrun; [|discriminate].
  rewrite loki_unit_step_eq, Hu, Hurl in Hrun. simpl in Hrun.
  rewrite (loki_units_loop_other_names after (unit_name u) _ _ Hrun Hlast).
  apply lookup_insert_eq.
Qed.

End LokiLastWins.

Lemma loki_endpoints_last_wins_witness :
  loki_endpoints_by_unit (with_loki [loki_unit "loki/0"; other_loki_unit "loki/0"])
  = Return {[ "loki/0" := JString "http://other:3100/push" ]}
  /\ ({[ "loki/0" := JString "http://other:3100/push" ]} : gmap string json)
     !! unit_name (other_loki_unit "loki/0")
     = Some (JString "http://other:3100/push").
Proof.
  split; [vm_compute; reflexivity|].
  apply (loki_endpoints_last_wins
           (with_loki [loki_unit "loki/0"; other_loki_unit "loki/0"])
           [loki_unit "loki/0"] [] (other_loki_unit "loki/0")).
  - reflexivity.
  - vm_compute. reflexivity.
  - vm_compute. reflexivity.
  - intros v Hin. by apply elem_of_nil in Hin.
  - vm_compute. reflexivity.
Defined.
